(** * NexoraCrew finance backend (index.js): a shallow embedding

    The Express application of [index.js] is embedded as pure functions over
    an explicit store.  A route handler takes the store and the request and
    returns the new store together with what happened to the response.

    External collaborators are kept abstract or idealised:
    - bcryptjs, jsonwebtoken's signature and wire format and [Date]'s ISO
      rendering are the operations of the [Runtime] class;
    - the MongoDB collections are lists of typed documents (one record per
      Mongoose schema).  Request bodies are read at the paths and types the
      schemas declare, every field optional; Mongoose's coercion of
      ill-typed values is not modelled, and neither is an [_id] sent in a
      body;
    - an [ObjectId] is handled in the string form in which the source sees it
      ([_id.toString()], [req.params.id]) and ids are compared as strings;
      Mongoose's cast of a request's id to an [ObjectId] is not modelled. *)

From Stdlib Require Import ZArith List String Ascii Bool Lia.
From Stdlib Require Import Sorting.Sorted Sorting.Permutation.
From Stdlib Require Import HexadecimalNat HexadecimalString.
Import ListNotations.
Local Open Scope string_scope.
Set Warnings "-register-all".

(** ** JavaScript values sent with [res.json] *)

Inductive value : Type :=
| JUndefined
| JNull
| JBool (b : bool)
| JNum (n : Z)
| JStr (s : string)
| JArr (items : list value)
| JObj (props : list (string * value)).

(** [x === undefined ? undefined : x] for an optional string property. *)
Definition of_opt (o : option string) : value :=
  match o with Some s => JStr s | None => JUndefined end.

(** Property lookup [o.k] on an object literal. *)
Fixpoint get_prop (k : string) (props : list (string * value)) : value :=
  match props with
  | [] => JUndefined
  | (k', v) :: rest => if (k' =? k)%string then v else get_prop k rest
  end.

Definition prop (k : string) (v : value) : value :=
  match v with JObj props => get_prop k props | _ => JUndefined end.

(** Does the property name [k] occur anywhere inside the value? *)
Fixpoint has_key (k : string) (v : value) : bool :=
  match v with
  | JArr items => existsb (has_key k) items
  | JObj props =>
      existsb (fun kv => (fst kv =? k)%string || has_key k (snd kv)) props
  | _ => false
  end.

(** What a handler does with the response.  [Unhandled]: the promise of the
    [async] handler rejects and nothing in [index.js] catches it, so the
    handler itself writes no response. *)
Inductive outcome : Type :=
| Resp (status : Z) (body : value)
| Unhandled.

(** [res.json(body)] and [res.status(code).json(body)]. *)
Definition res_json (body : value) : outcome := Resp 200 body.
Definition res_status_json (code : Z) (body : value) : outcome := Resp code body.

Definition error_body (message : string) : value := JObj [("error", JStr message)].
Definition success_body : value := JObj [("success", JBool true)].

(** ** Tokens and the external libraries *)

Module Jwt.
(** The claims [createToken] signs, with the registered claims [iat] and
    [exp] (seconds since the epoch) that [jwt.sign] adds. *)
Record payload : Type := {
  id : string;
  name : string;
  email : string;
  iat : Z;
  exp : option Z
}.

(** A decoded compact token: the claims and the signature over them. *)
Record jws : Type := {
  claims : payload;
  signature : string
}.

Inductive error : Type :=
| Malformed
| InvalidSignature
| TokenExpired.
End Jwt.

Class Runtime : Type := {
  (** [bcrypt.hash(password, 10)] *)
  bcrypt_hash : string -> string;
  (** [bcrypt.compare(password, hash)] *)
  bcrypt_compare : string -> string -> bool;
  (** HMAC-SHA256 of the token's signing input under a secret *)
  hs256 : string -> Jwt.payload -> string;
  (** the compact serialisation of a token and its parser *)
  jws_encode : Jwt.jws -> string;
  jws_decode : string -> option Jwt.jws;
  (** [new Date(ms).toISOString()] *)
  toISOString : Z -> string
}.

(** [process.env] *)
Record env : Type := {
  JWT_SECRET : string
}.

(** ** 2) Schemas / models *)

Module User.
Record t : Type := {
  _id : string;
  name : string;
  email : string;
  passwordHash : string;
  position : string;
  createdAt : Z
}.
End User.

Module Transaction.
Record t : Type := {
  _id : string;
  userId : string;
  userName : string;
  date : string;
  type : string;
  category : string;
  amount : Z;
  paymentMethod : string;
  bankAccountId : option string;
  bankName : option string;
  description : string;
  attachment : option string;
  investmentType : string;
  investors : list string;
  createdAt : string
}.

(** The fields a request body may carry: any subset of the schema paths. *)
Record body : Type := {
  b_userId : option string;
  b_userName : option string;
  b_date : option string;
  b_type : option string;
  b_category : option string;
  b_amount : option Z;
  b_paymentMethod : option string;
  b_bankAccountId : option string;
  b_bankName : option string;
  b_description : option string;
  b_attachment : option string;
  b_investmentType : option string;
  b_investors : option (list string);
  b_createdAt : option string
}.

Definition empty : body :=
  {| b_userId := None; b_userName := None; b_date := None; b_type := None;
     b_category := None; b_amount := None; b_paymentMethod := None;
     b_bankAccountId := None; b_bankName := None; b_description := None;
     b_attachment := None; b_investmentType := None; b_investors := None;
     b_createdAt := None |}.

(** [{ ...b, userId: uid, userName: uname }] *)
Definition with_owner (b : body) (uid uname : string) : body :=
  {| b_userId := Some uid; b_userName := Some uname; b_date := b_date b;
     b_type := b_type b; b_category := b_category b; b_amount := b_amount b;
     b_paymentMethod := b_paymentMethod b;
     b_bankAccountId := b_bankAccountId b; b_bankName := b_bankName b;
     b_description := b_description b; b_attachment := b_attachment b;
     b_investmentType := b_investmentType b; b_investors := b_investors b;
     b_createdAt := b_createdAt b |}.

(** [{ category }] *)
Definition only_category (c : option string) : body :=
  {| b_userId := None; b_userName := None; b_date := None; b_type := None;
     b_category := c; b_amount := None; b_paymentMethod := None;
     b_bankAccountId := None; b_bankName := None; b_description := None;
     b_attachment := None; b_investmentType := None; b_investors := None;
     b_createdAt := None |}.
End Transaction.

Module Bank.
Record t : Type := {
  _id : string;
  userId : string;
  bankName : string;
  holderName : string;
  cardNumber : string;
  expiryDate : string;
  cardType : string
}.

Record body : Type := {
  b_userId : option string;
  b_bankName : option string;
  b_holderName : option string;
  b_cardNumber : option string;
  b_expiryDate : option string;
  b_cardType : option string
}.

Definition empty : body :=
  {| b_userId := None; b_bankName := None; b_holderName := None;
     b_cardNumber := None; b_expiryDate := None; b_cardType := None |}.

(** [{ ...b, userId: uid }] *)
Definition with_owner (b : body) (uid : string) : body :=
  {| b_userId := Some uid; b_bankName := b_bankName b;
     b_holderName := b_holderName b; b_cardNumber := b_cardNumber b;
     b_expiryDate := b_expiryDate b; b_cardType := b_cardType b |}.
End Bank.

(** ** The document store

    The operations of a Mongoose model, on a collection kept as the list of
    its documents in insertion order. *)

Section Collection.
Context {A : Type}.

(** [Model.find(q)] *)
Definition find (q : A -> bool) (c : list A) : list A := filter q c.

(** [Model.findOne(q)] *)
Definition findOne (q : A -> bool) (c : list A) : option A := List.find q c.

(** [Model.updateOne(q, { $set: ... })]: the first match is rewritten. *)
Fixpoint updateOne (q : A -> bool) (set : A -> A) (c : list A) : list A :=
  match c with
  | [] => []
  | d :: rest => if q d then set d :: rest else d :: updateOne q set rest
  end.

(** [Model.updateMany(q, { $set: ... })] *)
Definition updateMany (q : A -> bool) (set : A -> A) (c : list A) : list A :=
  map (fun d => if q d then set d else d) c.

(** [Model.deleteOne(q)]: the first match is removed. *)
Fixpoint deleteOne (q : A -> bool) (c : list A) : list A :=
  match c with
  | [] => []
  | d :: rest => if q d then rest else d :: deleteOne q rest
  end.

(** [Model.deleteMany(q)] *)
Definition deleteMany (q : A -> bool) (c : list A) : list A :=
  filter (fun d => negb (q d)) c.

(** [.sort({ key: -1 })]: descending by [key]; documents with equal keys keep
    their order. *)
Context {K : Type} (leb : K -> K -> bool) (key : A -> K).

Fixpoint insert_desc (x : A) (l : list A) : list A :=
  match l with
  | [] => [x]
  | y :: rest =>
      if leb (key y) (key x) then x :: l else y :: insert_desc x rest
  end.

Definition sort_desc (l : list A) : list A := fold_right insert_desc [] l.

(** [a] may stand before [b] in a descending listing. *)
Definition descending (a b : A) : Prop := leb (key b) (key a) = true.
End Collection.

(** The filter objects the handlers pass: [{ _id: ..., userId: ... }]. *)
Inductive id_filter : Type :=
| AnyId
| IdIs (id : string)
| IdIn (ids : list string).

Record query : Type := {
  on_id : id_filter;
  on_userId : option string
}.

Definition id_matches (c : id_filter) (id : string) : bool :=
  match c with
  | AnyId => true
  | IdIs i => (id =? i)%string
  | IdIn ids => existsb (String.eqb id) ids
  end.

Definition owner_matches (c : option string) (userId : string) : bool :=
  match c with
  | None => true
  | Some u => (userId =? u)%string
  end.

Definition matches (q : query) (id userId : string) : bool :=
  id_matches (on_id q) id && owner_matches (on_userId q) userId.

Definition matches_tx (q : query) (t : Transaction.t) : bool :=
  matches q (Transaction._id t) (Transaction.userId t).

Definition matches_bank (q : query) (b : Bank.t) : bool :=
  matches q (Bank._id b) (Bank.userId b).

(** The three collections, and the counter from which the next [ObjectId] is
    drawn. *)
Record store : Type := {
  users : list User.t;
  transactions : list Transaction.t;
  banks : list Bank.t;
  next_id : nat
}.

Definition empty_store : store :=
  {| users := []; transactions := []; banks := []; next_id := 0 |}.

(** The string form of the [n]-th generated [ObjectId]. *)
Definition ObjectId (n : nat) : string :=
  NilEmpty.string_of_uint (Nat.to_hex_uint n).

(** *** Validation on [Model.create] *)

Inductive result (A : Type) : Type :=
| Ok (a : A)
| Throw (message : string).
Arguments Ok {A} a.
Arguments Throw {A} message.

Definition required {A : Type} (path : string) (v : option A) : list string :=
  match v with
  | Some _ => []
  | None => [path ++ ": Path `" ++ path ++ "` is required."]
  end.

(** On a [String] path [required] also refuses the empty string. *)
Definition required_string (path : string) (v : option string) : list string :=
  match v with
  | Some "" => required path (@None string)
  | _ => required path v
  end.

Definition enum (path : string) (allowed : list string) (v : option string)
  : list string :=
  match v with
  | Some s =>
      if existsb (String.eqb s) allowed then []
      else ["`" ++ s ++ "` is not a valid enum value for path `" ++ path ++ "`."]
  | None => []
  end.

Definition validated {A : Type} (model : string) (errors : list string) (doc : A)
  : result A :=
  match errors with
  | [] => Ok doc
  | _ => Throw (model ++ " validation failed: " ++ String.concat ", " errors)
  end.

Definition default {A : Type} (d : A) (v : option A) : A :=
  match v with Some a => a | None => d end.

(** [User.create({ name, email, passwordHash, position })] *)
Definition User_create (st : store) (now : Z)
    (name email passwordHash : string) (position : option string)
  : result (store * User.t) :=
  let user :=
    {| User._id := ObjectId (next_id st);
       User.name := name;
       User.email := email;
       User.passwordHash := passwordHash;
       User.position := default "Member" position;
       User.createdAt := now |} in
  match
    validated "User"
      (required_string "name" (Some name)
       ++ required_string "email" (Some email)
       ++ required_string "passwordHash" (Some passwordHash))
      ({| users := users st ++ [user];
          transactions := transactions st;
          banks := banks st;
          next_id := S (next_id st) |}, user)
  with
  | Throw message => Throw message
  | Ok created =>
      (* the unique index on [email] *)
      if existsb (fun u => (User.email u =? email)%string) (users st)
      then Throw "E11000 duplicate key error"
      else Ok created
  end.

(** [Transaction.create(b)] *)
Definition Transaction_create `{Runtime} (st : store) (now : Z)
    (b : Transaction.body) : result (store * Transaction.t) :=
  let tx :=
    {| Transaction._id := ObjectId (next_id st);
       Transaction.userId := default "" (Transaction.b_userId b);
       Transaction.userName := default "" (Transaction.b_userName b);
       Transaction.date := default "" (Transaction.b_date b);
       Transaction.type := default "" (Transaction.b_type b);
       Transaction.category := default "" (Transaction.b_category b);
       Transaction.amount := default 0%Z (Transaction.b_amount b);
       Transaction.paymentMethod := default "" (Transaction.b_paymentMethod b);
       Transaction.bankAccountId := Transaction.b_bankAccountId b;
       Transaction.bankName := Transaction.b_bankName b;
       Transaction.description := default "" (Transaction.b_description b);
       Transaction.attachment := Transaction.b_attachment b;
       Transaction.investmentType :=
         default "SINGLE" (Transaction.b_investmentType b);
       Transaction.investors := default [] (Transaction.b_investors b);
       Transaction.createdAt :=
         default (toISOString now) (Transaction.b_createdAt b) |} in
  validated "Transaction"
    (required_string "userId" (Transaction.b_userId b)
     ++ required_string "userName" (Transaction.b_userName b)
     ++ required_string "date" (Transaction.b_date b)
     ++ required_string "type" (Transaction.b_type b)
     ++ enum "type" ["INCOME"; "EXPENSE"] (Transaction.b_type b)
     ++ required_string "category" (Transaction.b_category b)
     ++ required "amount" (Transaction.b_amount b)
     ++ required_string "paymentMethod" (Transaction.b_paymentMethod b)
     ++ enum "investmentType" ["SINGLE"; "TEAM"]
          (Transaction.b_investmentType b))
    ({| users := users st;
        transactions := transactions st ++ [tx];
        banks := banks st;
        next_id := S (next_id st) |}, tx).

(** [Bank.create(b)] *)
Definition Bank_create (st : store) (b : Bank.body)
  : result (store * Bank.t) :=
  let bank :=
    {| Bank._id := ObjectId (next_id st);
       Bank.userId := default "" (Bank.b_userId b);
       Bank.bankName := default "" (Bank.b_bankName b);
       Bank.holderName := default "" (Bank.b_holderName b);
       Bank.cardNumber := default "" (Bank.b_cardNumber b);
       Bank.expiryDate := default "" (Bank.b_expiryDate b);
       Bank.cardType := default "" (Bank.b_cardType b) |} in
  validated "Bank"
    (required_string "userId" (Bank.b_userId b)
     ++ required_string "bankName" (Bank.b_bankName b)
     ++ required_string "holderName" (Bank.b_holderName b)
     ++ required_string "cardNumber" (Bank.b_cardNumber b)
     ++ required_string "expiryDate" (Bank.b_expiryDate b)
     ++ required_string "cardType" (Bank.b_cardType b)
     ++ enum "cardType" ["DEBIT"; "CREDIT"] (Bank.b_cardType b))
    ({| users := users st;
        transactions := transactions st;
        banks := banks st ++ [bank];
        next_id := S (next_id st) |}, bank).

(** *** [{ $set: b }] *)

Definition Transaction_set (b : Transaction.body) (t : Transaction.t)
  : Transaction.t :=
  {| Transaction._id := Transaction._id t;
     Transaction.userId := default (Transaction.userId t) (Transaction.b_userId b);
     Transaction.userName :=
       default (Transaction.userName t) (Transaction.b_userName b);
     Transaction.date := default (Transaction.date t) (Transaction.b_date b);
     Transaction.type := default (Transaction.type t) (Transaction.b_type b);
     Transaction.category :=
       default (Transaction.category t) (Transaction.b_category b);
     Transaction.amount := default (Transaction.amount t) (Transaction.b_amount b);
     Transaction.paymentMethod :=
       default (Transaction.paymentMethod t) (Transaction.b_paymentMethod b);
     Transaction.bankAccountId :=
       match Transaction.b_bankAccountId b with
       | Some v => Some v
       | None => Transaction.bankAccountId t
       end;
     Transaction.bankName :=
       match Transaction.b_bankName b with
       | Some v => Some v
       | None => Transaction.bankName t
       end;
     Transaction.description :=
       default (Transaction.description t) (Transaction.b_description b);
     Transaction.attachment :=
       match Transaction.b_attachment b with
       | Some v => Some v
       | None => Transaction.attachment t
       end;
     Transaction.investmentType :=
       default (Transaction.investmentType t) (Transaction.b_investmentType b);
     Transaction.investors :=
       default (Transaction.investors t) (Transaction.b_investors b);
     Transaction.createdAt :=
       default (Transaction.createdAt t) (Transaction.b_createdAt b) |}.

Definition Bank_set (b : Bank.body) (k : Bank.t) : Bank.t :=
  {| Bank._id := Bank._id k;
     Bank.userId := default (Bank.userId k) (Bank.b_userId b);
     Bank.bankName := default (Bank.bankName k) (Bank.b_bankName b);
     Bank.holderName := default (Bank.holderName k) (Bank.b_holderName b);
     Bank.cardNumber := default (Bank.cardNumber k) (Bank.b_cardNumber b);
     Bank.expiryDate := default (Bank.expiryDate k) (Bank.b_expiryDate b);
     Bank.cardType := default (Bank.cardType k) (Bank.b_cardType b) |}.

Definition with_transactions (st : store) (c : list Transaction.t) : store :=
  {| users := users st; transactions := c; banks := banks st;
     next_id := next_id st |}.

Definition with_banks (st : store) (c : list Bank.t) : store :=
  {| users := users st; transactions := transactions st; banks := c;
     next_id := next_id st |}.

(** The bodies of the two unauthenticated routes, as the handlers
    destructure them. *)
Module Register.
Record body : Type := {
  name : string;
  email : string;
  password : string;
  position : option string
}.
End Register.

Module Login.
Record body : Type := {
  email : string;
  password : string
}.
End Login.

(** ** 3) Helpers *)

Section Server.
Context `{Runtime}.
Variable cfg : env.

(** The claims [jwt.sign] puts under the signature at clock [now]
    (milliseconds): the caller's, [iat] and [exp = iat + expiresIn]. *)
Definition jwt_payload (id name email : string) (expiresIn : Z) (now : Z)
  : Jwt.payload :=
  let iat := (now / 1000)%Z in
  {| Jwt.id := id; Jwt.name := name; Jwt.email := email;
     Jwt.iat := iat; Jwt.exp := Some (iat + expiresIn)%Z |}.

Definition sealed (secret : string) (p : Jwt.payload) : Jwt.jws :=
  {| Jwt.claims := p; Jwt.signature := hs256 secret p |}.

(** [jwt.sign(claims, secret, { expiresIn })] *)
Definition jwt_sign (id name email : string) (secret : string)
    (expiresIn : Z) (now : Z) : string :=
  jws_encode (sealed secret (jwt_payload id name email expiresIn now)).

Definition expired (p : Jwt.payload) (now : Z) : bool :=
  match Jwt.exp p with
  | Some e => (e <=? now / 1000)%Z
  | None => false
  end.

(** [jwt.verify(token, secret)] at clock [now] (milliseconds). *)
Definition jwt_verify (token : string) (secret : string) (now : Z)
  : Jwt.error + Jwt.payload :=
  match jws_decode token with
  | None => inl Jwt.Malformed
  | Some j =>
      if (Jwt.signature j =? hs256 secret (Jwt.claims j))%string then
        if expired (Jwt.claims j) now then inl Jwt.TokenExpired
        else inr (Jwt.claims j)
      else inl Jwt.InvalidSignature
  end.




(** ['7d'] in seconds *)
Definition seven_days : Z := 7 * 24 * 60 * 60.

Definition createToken (now : Z) (user : User.t) : string :=
  jwt_sign (User._id user) (User.name user) (User.email user)
    (JWT_SECRET cfg) seven_days now.


Definition sanitizeUser (user : User.t) : value :=
  JObj [ ("id", JStr (User._id user));
         ("name", JStr (User.name user));
         ("email", JStr (User.email user));
         ("position", JStr (User.position user));
         ("createdAt", JStr (toISOString (User.createdAt user))) ].

Definition mapTransaction (t : Transaction.t) : value :=
  JObj [ ("id", JStr (Transaction._id t));
         ("userId", JStr (Transaction.userId t));
         ("userName", JStr (Transaction.userName t));
         ("date", JStr (Transaction.date t));
         ("type", JStr (Transaction.type t));
         ("category", JStr (Transaction.category t));
         ("amount", JNum (Transaction.amount t));
         ("paymentMethod", JStr (Transaction.paymentMethod t));
         ("bankAccountId", of_opt (Transaction.bankAccountId t));
         ("bankName", of_opt (Transaction.bankName t));
         ("description", JStr (Transaction.description t));
         ("attachment", of_opt (Transaction.attachment t));
         ("investmentType", JStr (Transaction.investmentType t));
         ("investors", JArr (map JStr (Transaction.investors t)));
         ("createdAt", JStr (Transaction.createdAt t)) ].

Definition mapBank (b : Bank.t) : value :=
  JObj [ ("id", JStr (Bank._id b));
         ("userId", JStr (Bank.userId b));
         ("bankName", JStr (Bank.bankName b));
         ("holderName", JStr (Bank.holderName b));
         ("cardNumber", JStr (Bank.cardNumber b));
         ("expiryDate", JStr (Bank.expiryDate b));
         ("cardType", JStr (Bank.cardType b)) ].

(** ** 4) Auth middleware *)

(** [header.slice(7)] *)
Definition slice7 (header : string) : string :=
  substring 7 (String.length header - 7) header.

(** [auth(req, res, next)]: either the response it sends itself, or the
    payload it leaves in [req.user] before calling [next()]. *)
Definition auth (now : Z) (authorization : option string)
  : outcome + Jwt.payload :=
  let header := default "" authorization in
  let token :=
    if prefix "Bearer " header then Some (slice7 header) else None in
  match token with
  | None | Some "" => inl (res_status_json 401 (error_body "No token"))
  | Some token =>
      match jwt_verify token (JWT_SECRET cfg) now with
      | inr payload => inr payload
      | inl _ => inl (res_status_json 401 (error_body "Invalid token"))
      end
  end.

(** [app.METHOD(path, auth, handler)]: the handler runs only when [auth]
    called [next()]. *)
Definition protected (now : Z) (authorization : option string) (st : store)
    (handler : Jwt.payload -> store * outcome) : store * outcome :=
  match auth now authorization with
  | inl response => (st, response)
  | inr user => handler user
  end.

(** ** 5) Routes *)

(** [GET /api/ping] *)
Definition ping : outcome :=
  res_json (JObj [ ("ok", JBool true);
                   ("message", JStr "NexoraCrew API is working 🚀") ]).

(** [POST /api/auth/register] *)
Definition auth_register (now : Z) (st : store) (body : Register.body)
  : store * outcome :=
  match
    findOne (fun u => (User.email u =? Register.email body)%string) (users st)
  with
  | Some existing =>
      (st, res_status_json 400 (error_body "Email already exists"))
  | None =>
      let passwordHash := bcrypt_hash (Register.password body) in
      match
        User_create st now (Register.name body) (Register.email body)
          passwordHash (Register.position body)
      with
      | Ok (st', user) =>
          let token := createToken now user in
          (st', res_json (JObj [ ("user", sanitizeUser user);
                                 ("token", JStr token) ]))
      | Throw message => (st, res_status_json 400 (error_body message))
      end
  end.

(** [POST /api/auth/login] *)
Definition auth_login (now : Z) (st : store) (body : Login.body)
  : store * outcome :=
  match
    findOne (fun u => (User.email u =? Login.email body)%string) (users st)
  with
  | None => (st, res_status_json 400 (error_body "Invalid credentials"))
  | Some user =>
      let ok := bcrypt_compare (Login.password body) (User.passwordHash user) in
      if negb ok
      then (st, res_status_json 400 (error_body "Invalid credentials"))
      else
        let token := createToken now user in
        (st, res_json (JObj [ ("user", sanitizeUser user);
                              ("token", JStr token) ]))
  end.

(** [GET /api/users] *)
Definition get_users (st : store) (user : Jwt.payload) : store * outcome :=
  let users := sort_desc Z.leb User.createdAt (find (fun _ => true) (users st)) in
  (st, res_json (JArr (map sanitizeUser users))).

(** [GET /api/transactions] *)
Definition get_transactions (st : store) (user : Jwt.payload)
  : store * outcome :=
  let tx :=
    sort_desc String.leb Transaction.date
      (find (matches_tx {| on_id := AnyId; on_userId := Some (Jwt.id user) |})
         (transactions st)) in
  (st, res_json (JArr (map mapTransaction tx))).

(** [POST /api/transactions] *)
Definition post_transactions (now : Z) (st : store) (user : Jwt.payload)
    (body : Transaction.body) : store * outcome :=
  match
    Transaction_create st now
      (Transaction.with_owner body (Jwt.id user) (Jwt.name user))
  with
  | Ok (st', tx) => (st', res_json (mapTransaction tx))
  | Throw _ => (st, Unhandled)
  end.

(** [PUT /api/transactions/:id] *)
Definition put_transactions (st : store) (user : Jwt.payload) (id : string)
    (body : Transaction.body) : store * outcome :=
  (with_transactions st
     (updateOne
        (matches_tx {| on_id := IdIs id; on_userId := Some (Jwt.id user) |})
        (Transaction_set body) (transactions st)),
   res_json success_body).

(** [DELETE /api/transactions/:id] *)
Definition delete_transactions (st : store) (user : Jwt.payload) (id : string)
  : store * outcome :=
  (with_transactions st
     (deleteOne
        (matches_tx {| on_id := IdIs id; on_userId := Some (Jwt.id user) |})
        (transactions st)),
   res_json success_body).

(** [POST /api/transactions/bulk-delete] *)
Definition bulk_delete (st : store) (user : Jwt.payload) (ids : list string)
  : store * outcome :=
  (with_transactions st
     (deleteMany
        (matches_tx {| on_id := IdIn ids; on_userId := Some (Jwt.id user) |})
        (transactions st)),
   res_json success_body).

(** [POST /api/transactions/bulk-category] *)
Definition bulk_category (st : store) (user : Jwt.payload) (ids : list string)
    (category : option string) : store * outcome :=
  (with_transactions st
     (updateMany
        (matches_tx {| on_id := IdIn ids; on_userId := Some (Jwt.id user) |})
        (Transaction_set (Transaction.only_category category))
        (transactions st)),
   res_json success_body).

(** [GET /api/banks] *)
Definition get_banks (st : store) (user : Jwt.payload) : store * outcome :=
  let banks :=
    find (matches_bank {| on_id := AnyId; on_userId := Some (Jwt.id user) |})
      (banks st) in
  (st, res_json (JArr (map mapBank banks))).

(** [POST /api/banks] *)
Definition post_banks (st : store) (user : Jwt.payload) (body : Bank.body)
  : store * outcome :=
  match Bank_create st (Bank.with_owner body (Jwt.id user)) with
  | Ok (st', bank) => (st', res_json (mapBank bank))
  | Throw _ => (st, Unhandled)
  end.

(** [PUT /api/banks/:id] *)
Definition put_banks (st : store) (user : Jwt.payload) (id : string)
    (body : Bank.body) : store * outcome :=
  (with_banks st
     (updateOne
        (matches_bank {| on_id := IdIs id; on_userId := Some (Jwt.id user) |})
        (Bank_set body) (banks st)),
   res_json success_body).

(** [DELETE /api/banks/:id] *)
Definition delete_banks (st : store) (user : Jwt.payload) (id : string)
  : store * outcome :=
  (with_banks st
     (deleteOne
        (matches_bank {| on_id := IdIs id; on_userId := Some (Jwt.id user) |})
        (banks st)),
   res_json success_body).

(** *** The routing table *)

Inductive request : Type :=
| GET_ping
| POST_auth_register (body : Register.body)
| POST_auth_login (body : Login.body)
| GET_users (authorization : option string)
| GET_transactions (authorization : option string)
| POST_transactions (authorization : option string) (body : Transaction.body)
| PUT_transactions (authorization : option string) (id : string)
    (body : Transaction.body)
| DELETE_transactions (authorization : option string) (id : string)
| POST_transactions_bulk_delete (authorization : option string)
    (ids : list string)
| POST_transactions_bulk_category (authorization : option string)
    (ids : list string) (category : option string)
| GET_banks (authorization : option string)
| POST_banks (authorization : option string) (body : Bank.body)
| PUT_banks (authorization : option string) (id : string) (body : Bank.body)
| DELETE_banks (authorization : option string) (id : string).

(** One request served at clock [now]. *)
Definition handle (now : Z) (st : store) (r : request) : store * outcome :=
  match r with
  | GET_ping => (st, ping)
  | POST_auth_register body => auth_register now st body
  | POST_auth_login body => auth_login now st body
  | GET_users a => protected now a st (get_users st)
  | GET_transactions a => protected now a st (get_transactions st)
  | POST_transactions a body =>
      protected now a st (fun user => post_transactions now st user body)
  | PUT_transactions a id body =>
      protected now a st (fun user => put_transactions st user id body)
  | DELETE_transactions a id =>
      protected now a st (fun user => delete_transactions st user id)
  | POST_transactions_bulk_delete a ids =>
      protected now a st (fun user => bulk_delete st user ids)
  | POST_transactions_bulk_category a ids category =>
      protected now a st (fun user => bulk_category st user ids category)
  | GET_banks a => protected now a st (get_banks st)
  | POST_banks a body =>
      protected now a st (fun user => post_banks st user body)
  | PUT_banks a id body =>
      protected now a st (fun user => put_banks st user id body)
  | DELETE_banks a id =>
      protected now a st (fun user => delete_banks st user id)
  end.

(** The [Authorization] header of a request to a protected route. *)
Definition authorization_of (r : request) : option (option string) :=
  match r with
  | GET_ping | POST_auth_register _ | POST_auth_login _ => None
  | GET_users a | GET_transactions a | POST_transactions a _
  | PUT_transactions a _ _ | DELETE_transactions a _
  | POST_transactions_bulk_delete a _ | POST_transactions_bulk_category a _ _
  | GET_banks a | POST_banks a _ | PUT_banks a _ _ | DELETE_banks a _ => Some a
  end.

(** The identity under which a request is served, if [auth] lets it through. *)
Definition caller_of (now : Z) (r : request) : option Jwt.payload :=
  match authorization_of r with
  | Some a => match auth now a with inr user => Some user | inl _ => None end
  | None => None
  end.

(** A run of the server: requests served one after the other, each at its own
    clock reading. *)
Fixpoint run (st : store) (rs : list (Z * request)) : store :=
  match rs with
  | [] => st
  | (now, r) :: rest => run (fst (handle now st r)) rest
  end.
End Server.

(** ** Stores that differ only in the stored hashes *)



(** ** Well-formed stores

    Every [_id] in a collection was drawn from the counter, and no two
    documents of a collection share one. *)

Definition drawn_below (n : nat) (ids : list string) : Prop :=
  forall i, In i ids -> exists k, k < n /\ i = ObjectId k.

Record store_ok (st : store) : Prop := {
  users_unique : NoDup (map User._id (users st));
  users_drawn : drawn_below (next_id st) (map User._id (users st));
  transactions_unique : NoDup (map Transaction._id (transactions st));
  transactions_drawn :
    drawn_below (next_id st) (map Transaction._id (transactions st));
  banks_unique : NoDup (map Bank._id (banks st));
  banks_drawn : drawn_below (next_id st) (map Bank._id (banks st))
}.

(** ** A small runtime and store for worked examples *)

Module Demo.
Definition secret : string := "s3cret".
Definition cfg : env := {| JWT_SECRET := secret |}.

Definition alice_claims : Jwt.payload :=
  {| Jwt.id := "0"; Jwt.name := "Alice"; Jwt.email := "alice@nexora.dev";
     Jwt.iat := 0; Jwt.exp := Some 604800%Z |}.

Definition bob_claims : Jwt.payload :=
  {| Jwt.id := "1"; Jwt.name := "Bob"; Jwt.email := "bob@nexora.dev";
     Jwt.iat := 0; Jwt.exp := Some 604800%Z |}.

(** A keyed digest standing in for HMAC-SHA256. *)
Definition digest (key : string) (p : Jwt.payload) : string :=
  key ++ ":" ++ Jwt.id p ++ ":" ++ Jwt.name p ++ ":" ++ Jwt.email p.

(** The tokens that exist in the examples, with their wire form. *)
Definition wire : list (string * Jwt.jws) :=
  [ ("alice.jwt",
     {| Jwt.claims := alice_claims; Jwt.signature := digest secret alice_claims |});
    ("bob.jwt",
     {| Jwt.claims := bob_claims; Jwt.signature := digest secret bob_claims |});
    ("forged.jwt",
     {| Jwt.claims := bob_claims; Jwt.signature := digest "guess" bob_claims |}) ].

Definition payload_eqb (p q : Jwt.payload) : bool :=
  (Jwt.id p =? Jwt.id q)%string && (Jwt.name p =? Jwt.name q)%string
  && (Jwt.email p =? Jwt.email q)%string && (Jwt.iat p =? Jwt.iat q)%Z
  && match Jwt.exp p, Jwt.exp q with
     | Some a, Some b => (a =? b)%Z
     | None, None => true
     | _, _ => false
     end.

Definition jws_eqb (j k : Jwt.jws) : bool :=
  payload_eqb (Jwt.claims j) (Jwt.claims k)
  && (Jwt.signature j =? Jwt.signature k)%string.

Definition encode (j : Jwt.jws) : string :=
  match List.find (fun e => jws_eqb (snd e) j) wire with
  | Some e => fst e
  | None => "unknown.jwt"
  end.

Definition decode (s : string) : option Jwt.jws :=
  match List.find (fun e => (fst e =? s)%string) wire with
  | Some e => Some (snd e)
  | None => None
  end.

Definition runtime : Runtime :=
  {| bcrypt_hash := fun password => "$2a$10$" ++ password;
     bcrypt_compare := fun password hash => (hash =? "$2a$10$" ++ password)%string;
     hs256 := digest;
     jws_encode := encode;
     jws_decode := decode;
     toISOString := fun ms => "T+" ++ ObjectId (Z.to_nat ms) |}.

Definition alice : User.t :=
  {| User._id := "0"; User.name := "Alice"; User.email := "alice@nexora.dev";
     User.passwordHash := "$2a$10$wonderland"; User.position := "Member";
     User.createdAt := 0 |}.

Definition bob : User.t :=
  {| User._id := "1"; User.name := "Bob"; User.email := "bob@nexora.dev";
     User.passwordHash := "$2a$10$builder"; User.position := "Lead";
     User.createdAt := 0 |}.

Definition rent : Transaction.body :=
  {| Transaction.b_userId := None; Transaction.b_userName := None;
     Transaction.b_date := Some "2024-05-01"; Transaction.b_type := Some "EXPENSE";
     Transaction.b_category := Some "Rent"; Transaction.b_amount := Some 1200%Z;
     Transaction.b_paymentMethod := Some "CARD";
     Transaction.b_bankAccountId := None; Transaction.b_bankName := None;
     Transaction.b_description := None; Transaction.b_attachment := None;
     Transaction.b_investmentType := None; Transaction.b_investors := None;
     Transaction.b_createdAt := None |}.

Definition card : Bank.body :=
  {| Bank.b_userId := None; Bank.b_bankName := Some "Nexora Bank";
     Bank.b_holderName := Some "Bob"; Bank.b_cardNumber := Some "4111111111111111";
     Bank.b_expiryDate := Some "12/30"; Bank.b_cardType := Some "DEBIT" |}.

(** A partial update that names nothing but another owner. *)
Definition hand_over_to_bob : Transaction.body :=
  {| Transaction.b_userId := Some "1"; Transaction.b_userName := None;
     Transaction.b_date := None; Transaction.b_type := None;
     Transaction.b_category := None; Transaction.b_amount := None;
     Transaction.b_paymentMethod := None;
     Transaction.b_bankAccountId := None; Transaction.b_bankName := None;
     Transaction.b_description := None; Transaction.b_attachment := None;
     Transaction.b_investmentType := None; Transaction.b_investors := None;
     Transaction.b_createdAt := None |}.

Definition as_alice : option string := Some "Bearer alice.jwt".
Definition as_bob : option string := Some "Bearer bob.jwt".

(** Alice and Bob register; each records a rent, and Bob adds a card. *)
Definition history : list (Z * request) :=
  [ (0%Z, POST_auth_register
            {| Register.name := "Alice"; Register.email := "alice@nexora.dev";
               Register.password := "wonderland"; Register.position := None |});
    (0%Z, POST_auth_register
            {| Register.name := "Bob"; Register.email := "bob@nexora.dev";
               Register.password := "builder"; Register.position := Some "Lead" |});
    (1000%Z, POST_transactions as_alice rent);
    (2000%Z, POST_transactions as_bob rent);
    (3000%Z, POST_banks as_bob card) ].

Definition st : store :=
  Eval vm_compute in @run runtime cfg empty_store history.

(** Alice records a second rent. *)
Definition posted : store * outcome :=
  Eval vm_compute in
    @handle runtime cfg 5000 st (POST_transactions as_alice rent).

Definition posted_record : value :=
  match snd posted with Resp _ body => body | Unhandled => JUndefined end.

(** Bob's rent, as it is stored. *)
Definition bob_rent : Transaction.t :=
  {| Transaction._id := "3"; Transaction.userId := "1";
     Transaction.userName := "Bob"; Transaction.date := "2024-05-01";
     Transaction.type := "EXPENSE"; Transaction.category := "Rent";
     Transaction.amount := 1200; Transaction.paymentMethod := "CARD";
     Transaction.bankAccountId := None; Transaction.bankName := None;
     Transaction.description := ""; Transaction.attachment := None;
     Transaction.investmentType := "SINGLE"; Transaction.investors := [];
     Transaction.createdAt := "T+7d0" |}.
End Demo.

(** * Properties *)

(** ** The order on strings used by [sort] *)





(** ** Collections *)

Section CollectionFacts.
Context {A : Type}.
Implicit Types (q : A -> bool) (set : A -> A) (c : list A).



Lemma updateOne_keeps q set c d :
  q d = false -> In d c -> In d (updateOne q set c).
Proof.
  intros Hd. induction c as [|e c IH]; simpl; [tauto|].
  intros [->|Hin].
  - rewrite Hd. left; reflexivity.
  - destruct (q e); simpl; auto.
Qed.

Lemma updateMany_keeps q set c d :
  q d = false -> In d c -> In d (updateMany q set c).
Proof.
  intros Hd Hin. unfold updateMany. apply in_map_iff.
  exists d. rewrite Hd. auto.
Qed.

Lemma deleteOne_keeps q c d :
  q d = false -> In d c -> In d (deleteOne q c).
Proof.
  intros Hd. induction c as [|e c IH]; simpl; [tauto|].
  intros [->|Hin].
  - rewrite Hd. left; reflexivity.
  - destruct (q e); simpl; auto.
Qed.

Lemma deleteMany_keeps q c d :
  q d = false -> In d c -> In d (deleteMany q c).
Proof.
  intros Hd Hin. unfold deleteMany. apply filter_In. rewrite Hd. auto.
Qed.

Lemma deleteOne_incl q c d : In d (deleteOne q c) -> In d c.
Proof.
  induction c as [|e c IH]; simpl; [tauto|].
  destruct (q e); simpl; intuition.
Qed.

(** *** Sorting *)

Context {K : Type} (leb : K -> K -> bool) (key : A -> K).
Hypothesis leb_total : forall x y, leb x y = true \/ leb y x = true.
Hypothesis leb_trans :
  forall x y z, leb x y = true -> leb y z = true -> leb x z = true.

Lemma insert_desc_perm x l : Permutation (insert_desc leb key x l) (x :: l).
Proof.
  induction l as [|y l IH]; simpl; [reflexivity|].
  destruct (leb (key y) (key x)); [reflexivity|].
  rewrite IH. apply perm_swap.
Qed.

Lemma sort_desc_perm l : Permutation (sort_desc leb key l) l.
Proof.
  induction l as [|x l IH]; simpl; [constructor|].
  rewrite insert_desc_perm. constructor. exact IH.
Qed.

Lemma insert_desc_sorted x l :
  StronglySorted (descending leb key) l ->
  StronglySorted (descending leb key) (insert_desc leb key x l).
Proof.
  induction 1 as [|y l Hs IH Hall]; simpl.
  - repeat constructor.
  - destruct (leb (key y) (key x)) eqn:E.
    + constructor; [constructor; assumption|].
      constructor; [exact E|].
      rewrite Forall_forall in Hall |- *. intros z Hz.
      unfold descending in *. eauto.
    + constructor; [exact IH|].
      rewrite Forall_forall in Hall |- *. intros z Hz.
      apply (Permutation_in _ (insert_desc_perm x l)) in Hz.
      destruct Hz as [<-|Hz]; [|auto].
      unfold descending. destruct (leb_total (key y) (key x)); congruence.
Qed.

Lemma sort_desc_sorted l :
  StronglySorted (descending leb key) (sort_desc leb key l).
Proof.
  induction l as [|x l IH]; simpl; [constructor|].
  apply insert_desc_sorted. exact IH.
Qed.
End CollectionFacts.

(** ** Filters *)

Lemma matches_owner (q : query) (id uid u : string) :
  on_userId q = Some u -> matches q id uid = true -> uid = u.
Proof.
  unfold matches, owner_matches. intros ->.
  rewrite andb_true_iff, String.eqb_eq. tauto.
Qed.

Lemma matches_foreign (q : query) (id uid u : string) :
  on_userId q = Some u -> uid <> u -> matches q id uid = false.
Proof.
  intros Hq Hne. destruct (matches q id uid) eqn:E; [|reflexivity].
  exfalso. apply Hne. eapply matches_owner; eassumption.
Qed.

Lemma matches_id (id' uid u id : string) :
  matches {| on_id := IdIs id; on_userId := Some u |} id' uid = true <->
  id' = id /\ uid = u.
Proof.
  unfold matches; simpl. rewrite andb_true_iff, !String.eqb_eq. tauto.
Qed.



(** ** What [Model.create] does when it succeeds *)

Lemma validated_Ok {A : Type} (model : string) (errors : list string)
    (doc r : A) :
  validated model errors doc = Ok r -> errors = [] /\ r = doc.
Proof. destruct errors; simpl; intros E; inversion E; auto. Qed.

Lemma required_string_ok (path : string) (v : option string) :
  required_string path v = [] -> exists s, v = Some s.
Proof. destruct v as [s|]; [eauto|discriminate]. Qed.

Lemma required_ok {A : Type} (path : string) (v : option A) :
  required path v = [] -> exists a, v = Some a.
Proof. destruct v as [a|]; [eauto|discriminate]. Qed.

Lemma Transaction_create_Ok `{Runtime} (st st' : store) (now : Z)
    (b : Transaction.body) (tx : Transaction.t) :
  Transaction_create st now b = Ok (st', tx) ->
  st' = {| users := users st; transactions := transactions st ++ [tx];
           banks := banks st; next_id := S (next_id st) |}
  /\ Transaction._id tx = ObjectId (next_id st)
  /\ Transaction.b_userId b = Some (Transaction.userId tx)
  /\ Transaction.b_userName b = Some (Transaction.userName tx)
  /\ Transaction.b_date b = Some (Transaction.date tx)
  /\ Transaction.b_type b = Some (Transaction.type tx)
  /\ Transaction.b_category b = Some (Transaction.category tx)
  /\ Transaction.b_amount b = Some (Transaction.amount tx)
  /\ Transaction.b_paymentMethod b = Some (Transaction.paymentMethod tx)
  /\ Transaction.bankAccountId tx = Transaction.b_bankAccountId b
  /\ Transaction.bankName tx = Transaction.b_bankName b
  /\ Transaction.description tx = default "" (Transaction.b_description b)
  /\ Transaction.attachment tx = Transaction.b_attachment b
  /\ Transaction.investmentType tx
     = default "SINGLE" (Transaction.b_investmentType b)
  /\ Transaction.investors tx = default [] (Transaction.b_investors b)
  /\ Transaction.createdAt tx
     = default (toISOString now) (Transaction.b_createdAt b).
Proof.
  unfold Transaction_create. intros E.
  apply validated_Ok in E. destruct E as [Herr E].
  repeat (apply app_eq_nil in Herr; destruct Herr as [?Hreq Herr]).
  apply required_string_ok in Hreq, Hreq0, Hreq1, Hreq2, Hreq4, Hreq6.
  apply required_ok in Hreq5.
  destruct Hreq as [? E1], Hreq0 as [? E2], Hreq1 as [? E3], Hreq2 as [? E4],
    Hreq4 as [? E5], Hreq5 as [? E6], Hreq6 as [? E7].
  inversion E; subst; simpl.
  rewrite E1, E2, E3, E4, E5, E6, E7. simpl. repeat split; reflexivity.
Qed.

Lemma Bank_create_Ok (st st' : store) (b : Bank.body) (bank : Bank.t) :
  Bank_create st b = Ok (st', bank) ->
  st' = {| users := users st; transactions := transactions st;
           banks := banks st ++ [bank]; next_id := S (next_id st) |}
  /\ Bank._id bank = ObjectId (next_id st)
  /\ Bank.b_userId b = Some (Bank.userId bank).
Proof.
  unfold Bank_create. intros E.
  apply validated_Ok in E. destruct E as [Herr E].
  apply app_eq_nil in Herr. destruct Herr as [Hreq _].
  apply required_string_ok in Hreq. destruct Hreq as [? E1].
  inversion E; subst; simpl. rewrite E1. auto.
Qed.

Lemma User_create_Ok (st st' : store) (now : Z) (name email hash : string)
    (position : option string) (user : User.t) :
  User_create st now name email hash position = Ok (st', user) ->
  st' = {| users := users st ++ [user]; transactions := transactions st;
           banks := banks st; next_id := S (next_id st) |}
  /\ User._id user = ObjectId (next_id st).
Proof.
  unfold User_create. intros E.
  destruct (validated _ _ _) as [created|] eqn:V; [|discriminate].
  destruct (existsb _ _); [discriminate|].
  apply validated_Ok in V. destruct V as [_ V].
  inversion E; subst. inversion H0; subst. auto.
Qed.

(** ** Ownership scoping *)

Lemma caller_of_auth `{Runtime} (cfg : env) (now : Z) (r : request)
    (caller : Jwt.payload) :
  caller_of cfg now r = Some caller ->
  exists a, authorization_of r = Some a /\ auth cfg now a = inr caller.
Proof.
  unfold caller_of. destruct (authorization_of r) as [a|]; [|discriminate].
  destruct (auth cfg now a) as [|user] eqn:E; [discriminate|].
  intros [= <-]. eauto.
Qed.

Lemma foreign_tx (caller : Jwt.payload) (c : id_filter) (t : Transaction.t) :
  Transaction.userId t <> Jwt.id caller ->
  matches_tx {| on_id := c; on_userId := Some (Jwt.id caller) |} t = false.
Proof. intros Hne. apply matches_foreign with (u := Jwt.id caller); auto. Qed.

Lemma foreign_bank (caller : Jwt.payload) (c : id_filter) (b : Bank.t) :
  Bank.userId b <> Jwt.id caller ->
  matches_bank {| on_id := c; on_userId := Some (Jwt.id caller) |} b = false.
Proof. intros Hne. apply matches_foreign with (u := Jwt.id caller); auto. Qed.

Lemma found_tx_owned (caller : Jwt.payload) (c : id_filter)
    (l : list Transaction.t) (t : Transaction.t) :
  In t (find (matches_tx {| on_id := c; on_userId := Some (Jwt.id caller) |}) l) ->
  In t l /\ Transaction.userId t = Jwt.id caller.
Proof.
  unfold find. rewrite filter_In. intros [Hin Hm]. split; [exact Hin|].
  eapply matches_owner; [|exact Hm]. reflexivity.
Qed.

Lemma found_bank_owned (caller : Jwt.payload) (c : id_filter)
    (l : list Bank.t) (b : Bank.t) :
  In b (find (matches_bank {| on_id := c; on_userId := Some (Jwt.id caller) |}) l) ->
  In b l /\ Bank.userId b = Jwt.id caller.
Proof.
  unfold find. rewrite filter_In. intros [Hin Hm]. split; [exact Hin|].
  eapply matches_owner; [|exact Hm]. reflexivity.
Qed.

(** C1.  A request served under the identity [caller] leaves every
    transaction and every bank record of any other owner in the store exactly
    as it was, whatever ids the client sent (single or in bulk), and the two
    listings return only documents of the store whose [userId] is the
    caller's id. *)
Theorem owner_filter_isolates_tenants `{Runtime} (cfg : env) (now : Z)
    (st : store) (r : request) (caller : Jwt.payload) :
  caller_of cfg now r = Some caller ->
  (forall t, In t (transactions st) ->
     Transaction.userId t <> Jwt.id caller ->
     In t (transactions (fst (handle cfg now st r))))
  /\ (forall b, In b (banks st) ->
        Bank.userId b <> Jwt.id caller ->
        In b (banks (fst (handle cfg now st r))))
  /\ (forall a, r = GET_transactions a ->
        exists found,
          snd (handle cfg now st r) = Resp 200 (JArr (map mapTransaction found))
          /\ forall t, In t found ->
               In t (transactions st) /\ Transaction.userId t = Jwt.id caller)
  /\ (forall a, r = GET_banks a ->
        exists found,
          snd (handle cfg now st r) = Resp 200 (JArr (map mapBank found))
          /\ forall b, In b found ->
               In b (banks st) /\ Bank.userId b = Jwt.id caller).
Proof.
  intros Hc. apply caller_of_auth in Hc. destruct Hc as (a & Ha & Hauth).
  repeat split.
  - intros t Hin Hne.
    destruct r; simpl in Ha; try discriminate; injection Ha as ->;
      simpl; unfold protected; rewrite Hauth; simpl; auto.
    + unfold post_transactions.
      destruct (Transaction_create _ _ _) as [[st' tx]|] eqn:E; simpl; auto.
      apply Transaction_create_Ok in E. destruct E as [-> _]. simpl.
      apply in_or_app; auto.
    + apply updateOne_keeps; auto using foreign_tx.
    + apply deleteOne_keeps; auto using foreign_tx.
    + apply deleteMany_keeps; auto using foreign_tx.
    + apply updateMany_keeps; auto using foreign_tx.
    + unfold post_banks.
      destruct (Bank_create _ _) as [[st' bank]|] eqn:E; simpl; auto.
      apply Bank_create_Ok in E. destruct E as [-> _]. simpl. auto.
  - intros b Hin Hne.
    destruct r; simpl in Ha; try discriminate; injection Ha as ->;
      simpl; unfold protected; rewrite Hauth; simpl; auto.
    + unfold post_transactions.
      destruct (Transaction_create _ _ _) as [[st' tx]|] eqn:E; simpl; auto.
      apply Transaction_create_Ok in E. destruct E as [-> _]. simpl. auto.
    + unfold post_banks.
      destruct (Bank_create _ _) as [[st' bank]|] eqn:E; simpl; auto.
      apply Bank_create_Ok in E. destruct E as [-> _]. simpl.
      apply in_or_app; auto.
    + apply updateOne_keeps; auto using foreign_bank.
    + apply deleteOne_keeps; auto using foreign_bank.
  - intros a' ->. simpl in Ha. injection Ha as ->.
    simpl. unfold protected. rewrite Hauth. simpl.
    eexists. split; [reflexivity|].
    intros t Hin.
    apply (Permutation_in _ (sort_desc_perm String.leb Transaction.date _)) in Hin.
    apply found_tx_owned in Hin. exact Hin.
  - intros a' ->. simpl in Ha. injection Ha as ->.
    simpl. unfold protected. rewrite Hauth. simpl.
    eexists. split; [reflexivity|].
    intros b Hin. apply found_bank_owned in Hin. exact Hin.
Qed.

Lemma owner_filter_isolates_tenants_witness :
  caller_of (H := Demo.runtime) Demo.cfg 5000
    (POST_transactions_bulk_delete Demo.as_alice ["2"; "3"])
  = Some Demo.alice_claims
  /\ map Transaction._id
       (transactions
          (fst (handle (H := Demo.runtime) Demo.cfg 5000 Demo.st
                  (POST_transactions_bulk_delete Demo.as_alice ["2"; "3"]))))
     = ["3"]
  /\ forall t, In t (transactions Demo.st) ->
       Transaction.userId t <> "0" ->
       In t (transactions
               (fst (handle (H := Demo.runtime) Demo.cfg 5000 Demo.st
                       (POST_transactions_bulk_delete Demo.as_alice ["2"; "3"])))).
Proof.
  split; [reflexivity|]. split; [reflexivity|].
  apply (owner_filter_isolates_tenants (H := Demo.runtime) Demo.cfg 5000 Demo.st
           (POST_transactions_bulk_delete Demo.as_alice ["2"; "3"])
           Demo.alice_claims).
  reflexivity.
Defined.

(** ** Ownership of a stored transaction *)

Lemma updateOne_hits {A : Type} (q : A -> bool) (set : A -> A) (c : list A)
    (d : A) :
  findOne q c = Some d -> In (set d) (updateOne q set c).
Proof.
  unfold findOne. induction c as [|e c IH]; simpl; [discriminate|].
  destruct (q e); [intros [= ->]; left; reflexivity|].
  intros E. right. auto.
Qed.

(** The owner's own partial update rewrites [userId] whenever the body
    carries one. *)
Lemma put_transactions_sets_userId (st : store) (user : Jwt.payload)
    (id : string) (body : Transaction.body) (t : Transaction.t) (u : string) :
  findOne (matches_tx {| on_id := IdIs id; on_userId := Some (Jwt.id user) |})
    (transactions st) = Some t ->
  Transaction.b_userId body = Some u ->
  exists t',
    In t' (transactions (fst (put_transactions st user id body)))
    /\ Transaction._id t' = Transaction._id t
    /\ Transaction.userId t' = u.
Proof.
  intros Hfound Hu. exists (Transaction_set body t). split; [|split].
  - simpl. apply updateOne_hits. exact Hfound.
  - reflexivity.
  - simpl. rewrite Hu. reflexivity.
Qed.

(** C2.  Evaluation at the failing input: Alice, the owner of transaction
    ["2"], sends [PUT /api/transactions/2] with the body [{ userId: "1" }];
    the stored transaction then belongs to user ["1"] (Bob), it has left
    Alice's listing and it shows up in Bob's. *)
Theorem put_transactions_reassigns_owner :
  let request := PUT_transactions Demo.as_alice "2" Demo.hand_over_to_bob in
  let st' := fst (handle (H := Demo.runtime) Demo.cfg 5000 Demo.st request) in
  map (fun t => (Transaction._id t, Transaction.userId t)) (transactions Demo.st)
  = [("2", "0"); ("3", "1")]
  /\ snd (handle (H := Demo.runtime) Demo.cfg 5000 Demo.st request)
     = Resp 200 success_body
  /\ map (fun t => (Transaction._id t, Transaction.userId t)) (transactions st')
     = [("2", "1"); ("3", "1")]
  /\ snd (handle (H := Demo.runtime) Demo.cfg 6000 st'
            (GET_transactions Demo.as_alice))
     = Resp 200 (JArr [])
  /\ (exists others,
        snd (handle (H := Demo.runtime) Demo.cfg 6000 st'
               (GET_transactions Demo.as_bob))
        = Resp 200 (JArr (others))
        /\ map (prop "id") others = [JStr "2"; JStr "3"]).
Proof.
  cbv zeta. repeat split; try reflexivity.
  eexists. split; [vm_compute; reflexivity|]. reflexivity.
Qed.

(** ** Listing *)



(** ** The store stays well formed *)

Lemma ObjectId_inj (m n : nat) : ObjectId m = ObjectId n -> m = n.
Proof.
  unfold ObjectId. intros E.
  apply HexadecimalNat.Unsigned.to_uint_inj.
  apply (f_equal NilEmpty.uint_of_string) in E.
  rewrite !NilEmpty.usu in E. congruence.
Qed.

Section Ids.
Context {A : Type} (idf : A -> string).
Implicit Types (q : A -> bool) (set : A -> A) (c : list A).

Lemma ids_updateOne q set c :
  (forall d, idf (set d) = idf d) ->
  map idf (updateOne q set c) = map idf c.
Proof.
  intros Hset. induction c as [|d c IH]; simpl; [reflexivity|].
  destruct (q d); simpl; congruence.
Qed.

Lemma ids_updateMany q set c :
  (forall d, idf (set d) = idf d) ->
  map idf (updateMany q set c) = map idf c.
Proof.
  intros Hset. unfold updateMany. rewrite map_map. apply map_ext.
  intros d. destruct (q d); auto.
Qed.

Lemma ids_deleteOne_incl q c i :
  In i (map idf (deleteOne q c)) -> In i (map idf c).
Proof.
  rewrite !in_map_iff. intros (d & E & Hin).
  exists d. split; [exact E|]. eapply deleteOne_incl; eassumption.
Qed.

Lemma ids_deleteOne_unique q c :
  NoDup (map idf c) -> NoDup (map idf (deleteOne q c)).
Proof.
  induction c as [|d c IH]; simpl; [auto|].
  intros Hnd. inversion Hnd as [|? ? Hnotin Hrest]; subst.
  destruct (q d); simpl; [exact Hrest|].
  constructor; [|auto].
  intros Hin. apply Hnotin. eapply ids_deleteOne_incl; eassumption.
Qed.

Lemma ids_filter_incl q c i : In i (map idf (filter q c)) -> In i (map idf c).
Proof.
  rewrite !in_map_iff. intros (d & E & Hin). apply filter_In in Hin.
  exists d. tauto.
Qed.

Lemma ids_filter_unique q c : NoDup (map idf c) -> NoDup (map idf (filter q c)).
Proof.
  induction c as [|d c IH]; simpl; [auto|].
  intros Hnd. inversion Hnd as [|? ? Hnotin Hrest]; subst.
  destruct (q d); simpl; [|auto].
  constructor; [|auto].
  intros Hin. apply Hnotin. eapply ids_filter_incl; eassumption.
Qed.

Lemma ids_append_unique c d n :
  NoDup (map idf c) -> drawn_below n (map idf c) -> idf d = ObjectId n ->
  NoDup (map idf (c ++ [d])).
Proof.
  intros Hnd Hdrawn Hd. rewrite map_app. simpl.
  apply NoDup_app; [exact Hnd|repeat constructor; simpl; tauto|].
  intros i Hin [<-|[]].
  destruct (Hdrawn _ Hin) as (k & Hk & E).
  rewrite Hd in E. apply ObjectId_inj in E. lia.
Qed.

Lemma ids_append_drawn c d n :
  drawn_below n (map idf c) -> idf d = ObjectId n ->
  drawn_below (S n) (map idf (c ++ [d])).
Proof.
  intros Hdrawn Hd i. rewrite map_app, in_app_iff. simpl.
  intros [Hin|[<-|[]]].
  - destruct (Hdrawn _ Hin) as (k & Hk & E). exists k. split; [lia|exact E].
  - exists n. split; [lia|exact Hd].
Qed.

End Ids.

Lemma drawn_below_S (n : nat) (ids : list string) :
  drawn_below n ids -> drawn_below (S n) ids.
Proof.
  intros Hd i Hin. destruct (Hd i Hin) as (k & Hk & E). exists k. split; [lia|auto].
Qed.

Lemma empty_store_ok : store_ok empty_store.
Proof. split; simpl; try constructor; intros i []. Qed.

Lemma handle_ok `{Runtime} (cfg : env) (now : Z) (st : store) (r : request) :
  store_ok st -> store_ok (fst (handle cfg now st r)).
Proof.
  intros [Hu1 Hu2 Ht1 Ht2 Hb1 Hb2].
  assert (Hst : store_ok st) by (split; assumption).
  destruct r; simpl; try exact Hst;
    try (unfold protected; destruct (auth cfg now authorization); simpl;
         [exact Hst|]).
  - unfold auth_register. destruct (findOne _ _); simpl; [exact Hst|].
    destruct (User_create _ _ _ _ _ _) as [[st' user]|] eqn:E; simpl;
      [|exact Hst].
    apply User_create_Ok in E. destruct E as [-> Hid].
    split; simpl; auto using drawn_below_S.
    + eapply ids_append_unique; eassumption.
    + apply ids_append_drawn; assumption.
  - unfold auth_login. destruct (findOne _ _); simpl; [|exact Hst].
    destruct (negb _); exact Hst.
  - exact Hst.
  - exact Hst.
  - unfold post_transactions.
    destruct (Transaction_create _ _ _) as [[st' tx]|] eqn:E; simpl;
      [|exact Hst].
    apply Transaction_create_Ok in E. destruct E as (-> & Hid & _).
    split; simpl; auto using drawn_below_S.
    + eapply ids_append_unique; eassumption.
    + apply ids_append_drawn; assumption.
  - split; simpl; auto; rewrite ids_updateOne; auto.
  - split; simpl; auto.
    + apply ids_deleteOne_unique; assumption.
    + intros i Hin. apply Ht2. eapply ids_deleteOne_incl; eassumption.
  - split; simpl; auto.
    + apply ids_filter_unique; assumption.
    + intros i Hin. apply Ht2. eapply ids_filter_incl; eassumption.
  - split; simpl; auto; rewrite ids_updateMany; auto.
  - exact Hst.
  - unfold post_banks.
    destruct (Bank_create _ _) as [[st' bank]|] eqn:E; simpl; [|exact Hst].
    apply Bank_create_Ok in E. destruct E as (-> & Hid & _).
    split; simpl; auto using drawn_below_S.
    + eapply ids_append_unique; eassumption.
    + apply ids_append_drawn; assumption.
  - split; simpl; auto; rewrite ids_updateOne; auto.
  - split; simpl; auto.
    + apply ids_deleteOne_unique; assumption.
    + intros i Hin. apply Hb2. eapply ids_deleteOne_incl; eassumption.
Qed.

Lemma run_ok `{Runtime} (cfg : env) (rs : list (Z * request)) :
  forall st, store_ok st -> store_ok (run cfg st rs).
Proof.
  induction rs as [|[now r] rs IH]; simpl; intros st Hst; [exact Hst|].
  apply IH. apply handle_ok. exact Hst.
Qed.

Lemma demo_store_ok : store_ok Demo.st.
Proof.
  change Demo.st with (run (H := Demo.runtime) Demo.cfg empty_store Demo.history).
  apply run_ok. apply empty_store_ok.
Qed.

(** ** Updates and deletes that hit nothing *)





(** ** Login *)



(** Every answer of the login route is either that one or the successful
    one. *)
Lemma login_answers `{Runtime} (cfg : env) (now : Z) (st : store)
    (body : Login.body) :
  snd (handle cfg now st (POST_auth_login body))
  = Resp 400 (error_body "Invalid credentials")
  \/ exists user,
       In user (users st)
       /\ bcrypt_compare (Login.password body) (User.passwordHash user) = true
       /\ snd (handle cfg now st (POST_auth_login body))
          = Resp 200 (JObj [ ("user", sanitizeUser user);
                             ("token", JStr (createToken cfg now user)) ]).
Proof.
  simpl. unfold auth_login.
  destruct (findOne _ _) as [user|] eqn:E; [|left; reflexivity].
  destruct (bcrypt_compare _ _) eqn:C; simpl; [|left; reflexivity].
  right. exists user. split; [|split; [exact C|reflexivity]].
  apply find_some in E. tauto.
Qed.

(** ** Secrets stay out of responses *)


Lemma has_key_sanitizeUser `{Runtime} (user : User.t) :
  has_key "passwordHash" (sanitizeUser user) = false.
Proof. reflexivity. Qed.


Lemma has_key_mapBank (b : Bank.t) :
  has_key "passwordHash" (mapBank b) = false.
Proof. reflexivity. Qed.

Lemma has_key_error_body (message : string) :
  has_key "passwordHash" (error_body message) = false.
Proof. reflexivity. Qed.




Lemma find_all {A : Type} (l : list A) : find (fun _ => true) l = l.
Proof.
  unfold find. induction l as [|x l IH]; simpl; [reflexivity|].
  rewrite IH. reflexivity.
Qed.


(** ** The [Authorization] header *)

Lemma substring_all (s : string) : substring 0 (String.length s) s = s.
Proof. induction s as [|c s IH]; simpl; [reflexivity|]. rewrite IH. reflexivity. Qed.

Lemma slice7_Bearer (token : string) : slice7 ("Bearer " ++ token) = token.
Proof. unfold slice7. simpl. rewrite Nat.sub_0_r. apply substring_all. Qed.

Lemma prefix_Bearer (token : string) : prefix "Bearer " ("Bearer " ++ token) = true.
Proof. simpl. destruct token; reflexivity. Qed.

Lemma prefix_split (p : string) :
  forall s, prefix p s = true ->
    s = p ++ substring (String.length p) (String.length s - String.length p) s.
Proof.
  induction p as [|c p IH]; intros s.
  - intros _. simpl. rewrite Nat.sub_0_r. symmetry. apply substring_all.
  - destruct s as [|d s]; simpl; [discriminate|].
    destruct (ascii_dec c d) as [->|]; [|discriminate].
    intros Hp. f_equal. apply IH. exact Hp.
Qed.

Lemma auth_Bearer `{Runtime} (cfg : env) (now : Z) (token : string) :
  token <> "" ->
  auth cfg now (Some ("Bearer " ++ token))
  = match jwt_verify token (JWT_SECRET cfg) now with
    | inr payload => inr payload
    | inl _ => inl (Resp 401 (error_body "Invalid token"))
    end.
Proof.
  intros Hne. unfold auth. cbn [default].
  rewrite prefix_Bearer, slice7_Bearer.
  destruct token; [congruence|reflexivity].
Qed.

Lemma auth_passes `{Runtime} (cfg : env) (now : Z) (a : option string)
    (payload : Jwt.payload) :
  auth cfg now a = inr payload ->
  exists token,
    a = Some ("Bearer " ++ token) /\ token <> ""
    /\ jwt_verify token (JWT_SECRET cfg) now = inr payload.
Proof.
  unfold auth. destruct (prefix "Bearer " (default "" a)) eqn:P; [|discriminate].
  apply prefix_split in P. change (String.length "Bearer ") with 7 in P.
  fold (slice7 (default "" a)) in P.
  destruct (slice7 (default "" a)) as [|c token] eqn:S; [discriminate|].
  destruct (jwt_verify _ _ _) as [|p] eqn:V; [discriminate|].
  intros [= <-]. exists (String c token).
  destruct a as [header|]; [|discriminate].
  simpl in P. rewrite P. split; [reflexivity|]. split; [discriminate|exact V].
Qed.

(** ** Token verification *)





(** ** Creating records *)

Lemma post_transactions_created `{Runtime} (now : Z) (st st' : store)
    (user : Jwt.payload) (body : Transaction.body) (r : value) (status : Z) :
  post_transactions now st user body = (st', Resp status r) ->
  exists tx,
    Transaction_create st now
      (Transaction.with_owner body (Jwt.id user) (Jwt.name user))
    = Ok (st', tx)
    /\ status = 200%Z /\ r = mapTransaction tx.
Proof.
  unfold post_transactions.
  destruct (Transaction_create _ _ _) as [[st'' tx]|]; [|discriminate].
  intros [= <- <- <-]. eauto.
Qed.

Lemma fresh_ObjectId (n : nat) (ids : list string) :
  drawn_below n ids -> ~ In (ObjectId n) ids.
Proof.
  intros Hd Hin. destruct (Hd _ Hin) as (k & Hk & E).
  apply ObjectId_inj in E. lia.
Qed.



Lemma with_owner_irrelevant (b b' : Transaction.body) (x y u n : string) :
  Transaction.with_owner b x y = Transaction.with_owner b' x y ->
  Transaction.with_owner b u n = Transaction.with_owner b' u n.
Proof.
  unfold Transaction.with_owner. intros E. injection E as -> -> -> -> -> -> ->.
  congruence.
Qed.

Lemma bank_with_owner_irrelevant (b b' : Bank.body) (x u : string) :
  Bank.with_owner b x = Bank.with_owner b' x ->
  Bank.with_owner b u = Bank.with_owner b' u.
Proof.
  unfold Bank.with_owner. intros E. injection E as -> -> -> -> ->.
  reflexivity.
Qed.

(** C9.  What the two creating routes do does not depend on the [userId]
    (and, for transactions, [userName]) of the request body: two bodies that
    differ at most there are served identically, and a record that gets
    created carries the caller's id (and name). *)
Theorem created_records_belong_to_caller `{Runtime} (cfg : env) (now : Z)
    (st : store) (a : option string) (caller : Jwt.payload) :
  auth cfg now a = inr caller ->
  (forall body body' x y,
     Transaction.with_owner body x y = Transaction.with_owner body' x y ->
     handle cfg now st (POST_transactions a body)
     = handle cfg now st (POST_transactions a body'))
  /\ (forall body st' status r,
        handle cfg now st (POST_transactions a body) = (st', Resp status r) ->
        exists t,
          transactions st' = (transactions st ++ [t])%list
          /\ r = mapTransaction t
          /\ Transaction.userId t = Jwt.id caller
          /\ Transaction.userName t = Jwt.name caller)
  /\ (forall body body' x,
        Bank.with_owner body x = Bank.with_owner body' x ->
        handle cfg now st (POST_banks a body)
        = handle cfg now st (POST_banks a body'))
  /\ (forall body st' status r,
        handle cfg now st (POST_banks a body) = (st', Resp status r) ->
        exists b,
          banks st' = (banks st ++ [b])%list
          /\ r = mapBank b
          /\ Bank.userId b = Jwt.id caller).
Proof.
  intros Hauth. simpl. unfold protected. rewrite Hauth.
  split; [|split; [|split]].
  - intros body body' x y E. unfold post_transactions.
    rewrite (with_owner_irrelevant body body' x y _ _ E). reflexivity.
  - intros body st' status r Hpost.
    apply post_transactions_created in Hpost.
    destruct Hpost as (tx & Hcreate & _ & ->).
    apply Transaction_create_Ok in Hcreate. simpl in Hcreate.
    destruct Hcreate as (-> & _ & Huid & Huname & _).
    exists tx. simpl. repeat split; congruence.
  - intros body body' x E. unfold post_banks.
    rewrite (bank_with_owner_irrelevant body body' x _ E). reflexivity.
  - intros body st' status r. unfold post_banks.
    destruct (Bank_create _ _) as [[st'' bank]|] eqn:Hcreate; [|discriminate].
    intros [= <- <- <-].
    apply Bank_create_Ok in Hcreate. simpl in Hcreate.
    destruct Hcreate as (-> & _ & Huid).
    exists bank. simpl. repeat split; congruence.
Qed.

Lemma created_records_belong_to_caller_witness :
  auth (H := Demo.runtime) Demo.cfg 5000 Demo.as_alice = inr Demo.alice_claims
  /\ handle (H := Demo.runtime) Demo.cfg 5000 Demo.st
       (POST_transactions Demo.as_alice (Transaction.with_owner Demo.rent "1" "Bob"))
     = handle (H := Demo.runtime) Demo.cfg 5000 Demo.st
         (POST_transactions Demo.as_alice Demo.rent)
  /\ prop "userId" Demo.posted_record = JStr "0".
Proof.
  split; [reflexivity|]. split; [|reflexivity].
  destruct (created_records_belong_to_caller (H := Demo.runtime) Demo.cfg 5000
              Demo.st Demo.as_alice Demo.alice_claims eq_refl) as (Hsame & _).
  apply (Hsame (Transaction.with_owner Demo.rent "1" "Bob") Demo.rent "" "").
  reflexivity.
Defined.

(** ** Missing and invalid tokens *)

Lemma protected_rejects `{Runtime} (cfg : env) (now : Z) (st : store)
    (r : request) (a : option string) (response : outcome) :
  authorization_of r = Some a ->
  auth cfg now a = inl response ->
  handle cfg now st r = (st, response).
Proof.
  intros Ha Hauth.
  destruct r; simpl in Ha; try discriminate; injection Ha as ->;
    simpl; unfold protected; rewrite Hauth; reflexivity.
Qed.

(** C10.  A header that does not start with the seven characters
    ["Bearer "] counts as no token at all: [auth], and with it every protected
    route, answers 401 [{ error: "No token" }] and the store is untouched.
    That body differs from the 401 [{ error: "Invalid token" }] which a
    non-empty bearer token gets when verification fails, and [auth] lets a
    request through only if its header is ["Bearer "] followed by a non-empty
    token. *)
Theorem bearer_prefix_is_required `{Runtime} (cfg : env) (now : Z)
    (header : string) :
  prefix "Bearer " header = false ->
  auth cfg now (Some header) = inl (Resp 401 (JObj [("error", JStr "No token")]))
  /\ auth cfg now None = inl (Resp 401 (JObj [("error", JStr "No token")]))
  /\ (forall st r,
        authorization_of r = Some (Some header) ->
        handle cfg now st r = (st, Resp 401 (JObj [("error", JStr "No token")])))
  /\ (forall token,
        token <> "" ->
        (exists e, jwt_verify token (JWT_SECRET cfg) now = inl e) ->
        auth cfg now (Some ("Bearer " ++ token))
        = inl (Resp 401 (JObj [("error", JStr "Invalid token")])))
  /\ JObj [("error", JStr "No token")] <> JObj [("error", JStr "Invalid token")]
  /\ (forall a payload,
        auth cfg now a = inr payload ->
        exists token, a = Some ("Bearer " ++ token) /\ token <> "").
Proof.
  intros Hprefix.
  assert (Hauth : auth cfg now (Some header)
                  = inl (Resp 401 (JObj [("error", JStr "No token")]))).
  { unfold auth. cbn [default]. rewrite Hprefix. reflexivity. }
  split; [exact Hauth|]. split; [reflexivity|].
  split; [|split; [|split]].
  - intros st r Hr. apply (protected_rejects cfg now st r (Some header)); assumption.
  - intros token Hne [e E]. rewrite (auth_Bearer cfg now token Hne), E.
    reflexivity.
  - discriminate.
  - intros a payload Hpass. apply auth_passes in Hpass.
    destruct Hpass as (token & Ha & Hne & _). eauto.
Qed.

Lemma bearer_prefix_is_required_witness :
  prefix "Bearer " "bearer alice.jwt" = false
  /\ auth (H := Demo.runtime) Demo.cfg 5000 (Some "bearer alice.jwt")
     = inl (Resp 401 (JObj [("error", JStr "No token")]))
  /\ handle (H := Demo.runtime) Demo.cfg 5000 Demo.st
       (DELETE_transactions (Some "bearer alice.jwt") "2")
     = (Demo.st, Resp 401 (JObj [("error", JStr "No token")])).
Proof.
  split; [reflexivity|].
  destruct (bearer_prefix_is_required (H := Demo.runtime) Demo.cfg 5000
              "bearer alice.jwt" eq_refl) as (Hauth & _ & Hhandle & _).
  split; [exact Hauth|]. apply Hhandle. reflexivity.
Defined.

(** The bare token, and a header with the right prefix and a bad token. *)
Example bare_token_is_no_token :
  auth (H := Demo.runtime) Demo.cfg 5000 (Some "alice.jwt")
  = inl (Resp 401 (error_body "No token"))
  /\ auth (H := Demo.runtime) Demo.cfg 5000 (Some "Bearer ")
     = inl (Resp 401 (error_body "No token"))
  /\ auth (H := Demo.runtime) Demo.cfg 5000 (Some "Bearer forged.jwt")
     = inl (Resp 401 (error_body "Invalid token"))
  /\ auth (H := Demo.runtime) Demo.cfg 5000 (Some "Bearer alice.jwt")
     = inr Demo.alice_claims.
Proof. repeat split; reflexivity. Qed.

(** ** Where ownership can and cannot change

    Apart from a [PUT /api/transactions/:id] whose body carries [userId],
    no request changes the owner of a stored transaction: every transaction
    of the new store either is the one just created or continues a
    transaction of the old store with the same [_id] and [userId]. *)

Lemma updateOne_from {A : Type} (q : A -> bool) (set : A -> A) (c : list A)
    (d' : A) :
  In d' (updateOne q set c) -> In d' c \/ exists d, In d c /\ d' = set d.
Proof.
  induction c as [|e c IH]; simpl; [tauto|].
  destruct (q e); simpl.
  - intros [<-|Hin]; [right; eauto|left; auto].
  - intros [<-|Hin]; [left; auto|].
    destruct (IH Hin) as [?|(d & ? & ?)]; [left; auto|right; eauto].
Qed.

Lemma updateMany_from {A : Type} (q : A -> bool) (set : A -> A) (c : list A)
    (d' : A) :
  In d' (updateMany q set c) -> In d' c \/ exists d, In d c /\ d' = set d.
Proof.
  unfold updateMany. rewrite in_map_iff. intros (d & E & Hin).
  destruct (q d); subst; [right; eauto|left; auto].
Qed.

Lemma owner_changes_only_by_put `{Runtime} (cfg : env) (now : Z) (st : store)
    (r : request) (t' : Transaction.t) :
  (forall a id body, r = PUT_transactions a id body ->
                     Transaction.b_userId body = None) ->
  In t' (transactions (fst (handle cfg now st r))) ->
  Transaction._id t' = ObjectId (next_id st)
  \/ exists t, In t (transactions st)
               /\ Transaction._id t' = Transaction._id t
               /\ Transaction.userId t' = Transaction.userId t.
Proof.
  intros Hput.
  assert (Hsame : In t' (transactions st) ->
                  Transaction._id t' = ObjectId (next_id st)
                  \/ exists t, In t (transactions st)
                               /\ Transaction._id t' = Transaction._id t
                               /\ Transaction.userId t' = Transaction.userId t)
    by (intros Hin; right; exists t'; auto).
  destruct r; simpl; try exact Hsame;
    try (unfold protected; destruct (auth cfg now authorization); simpl;
         [exact Hsame|]); try exact Hsame.
  - unfold auth_register. destruct (findOne _ _); simpl; [exact Hsame|].
    destruct (User_create _ _ _ _ _ _) as [[st' user]|] eqn:E; simpl;
      [|exact Hsame].
    apply User_create_Ok in E. destruct E as [-> _]. exact Hsame.
  - unfold auth_login. destruct (findOne _ _); simpl; [|exact Hsame].
    destruct (negb _); exact Hsame.
  - unfold post_transactions.
    destruct (Transaction_create _ _ _) as [[st' tx]|] eqn:E; simpl;
      [|exact Hsame].
    apply Transaction_create_Ok in E. destruct E as (-> & Hid & _). simpl.
    rewrite in_app_iff. simpl. intros [Hin|[<-|[]]]; auto.
  - intros Hin. apply updateOne_from in Hin.
    destruct Hin as [Hin|(t & Hin & ->)]; [auto|].
    right. exists t. simpl. rewrite (Hput _ _ _ eq_refl). auto.
  - intros Hin. apply deleteOne_incl in Hin. auto.
  - unfold deleteMany. rewrite filter_In. tauto.
  - intros Hin. apply updateMany_from in Hin.
    destruct Hin as [Hin|(t & Hin & ->)]; [auto|].
    right. exists t. auto.
  - unfold post_banks. destruct (Bank_create _ _) as [[st' bank]|] eqn:E; simpl;
      [|exact Hsame].
    apply Bank_create_Ok in E. destruct E as (-> & _). exact Hsame.
Qed.

Lemma owner_changes_only_by_put_witness :
  (forall a id body,
     POST_transactions_bulk_category Demo.as_alice ["2"; "3"] (Some "Housing")
     = PUT_transactions a id body ->
     Transaction.b_userId body = None)
  /\ forall t',
       In t' (transactions
                (fst (handle (H := Demo.runtime) Demo.cfg 5000 Demo.st
                        (POST_transactions_bulk_category Demo.as_alice
                           ["2"; "3"] (Some "Housing"))))) ->
       Transaction._id t' = ObjectId (next_id Demo.st)
       \/ exists t, In t (transactions Demo.st)
                    /\ Transaction._id t' = Transaction._id t
                    /\ Transaction.userId t' = Transaction.userId t.
Proof.
  split; [intros; discriminate|].
  intros t'.
  apply (owner_changes_only_by_put (H := Demo.runtime) Demo.cfg 5000 Demo.st
           (POST_transactions_bulk_category Demo.as_alice ["2"; "3"]
              (Some "Housing")) t').
  intros; discriminate.
Defined.

(** * Further properties of the routes *)

(** ** Runs of the server *)


Lemma findOne_none_iff {A : Type} (q : A -> bool) (c : list A) :
  findOne q c = None <-> forall d, In d c -> q d = false.
Proof.
  unfold findOne. split.
  - intros E d Hin. exact (find_none q c E d Hin).
  - induction c as [|e c IH]; simpl; intros Hq; [reflexivity|].
    rewrite (Hq e) by auto. apply IH. auto.
Qed.

Lemma findOne_app_new {A : Type} (q : A -> bool) (c : list A) (d : A) :
  findOne q c = None -> q d = true -> findOne q (c ++ [d]) = Some d.
Proof.
  unfold findOne. induction c as [|e c IH]; simpl; intros E Hd.
  - rewrite Hd. reflexivity.
  - destruct (q e); [discriminate|]. auto.
Qed.

(** What a successful registration leaves behind. *)
Lemma auth_register_created `{Runtime} (cfg : env) (now : Z) (st st' : store)
    (body : Register.body) (r : value) :
  auth_register cfg now st body = (st', Resp 200 r) ->
  let user :=
    {| User._id := ObjectId (next_id st);
       User.name := Register.name body;
       User.email := Register.email body;
       User.passwordHash := bcrypt_hash (Register.password body);
       User.position := default "Member" (Register.position body);
       User.createdAt := now |} in
  findOne (fun u => (User.email u =? Register.email body)%string) (users st)
  = None
  /\ st' = {| users := users st ++ [user]; transactions := transactions st;
              banks := banks st; next_id := S (next_id st) |}
  /\ r = JObj [ ("user", sanitizeUser user);
                ("token", JStr (createToken cfg now user)) ].
Proof.
  unfold auth_register.
  destruct (findOne _ (users st)) eqn:Efind; [discriminate|].
  destruct (User_create _ _ _ _ _ _) as [[st'' user]|] eqn:Ecreate;
    [|discriminate].
  intros [= <- <-]. cbv zeta.
  unfold User_create in Ecreate.
  destruct (validated _ _ _) as [created|] eqn:V; [|discriminate].
  destruct (existsb _ _); [discriminate|].
  apply validated_Ok in V. destruct V as [_ ->].
  injection Ecreate as <- <-. auto.
Qed.

(** ** Registration *)

(** A registration that succeeds can be followed by a login with the same
    email and password, provided [bcrypt.compare] accepts the password
    against the hash [bcrypt.hash] made of it: the login answers 200 with the
    same public user, whose [email] is the one registered. *)
Theorem register_then_login `{Runtime} (cfg : env) (now now' : Z)
    (st st' : store) (body : Register.body) (r : value) :
  handle cfg now st (POST_auth_register body) = (st', Resp 200 r) ->
  bcrypt_compare (Register.password body)
    (bcrypt_hash (Register.password body)) = true ->
  exists token',
    handle cfg now' st'
      (POST_auth_login {| Login.email := Register.email body;
                          Login.password := Register.password body |})
    = (st', Resp 200 (JObj [ ("user", prop "user" r); ("token", JStr token') ]))
    /\ prop "email" (prop "user" r) = JStr (Register.email body)
    /\ prop "name" (prop "user" r) = JStr (Register.name body).
Proof.
  simpl. intros Hreg Hbcrypt.
  apply auth_register_created in Hreg. cbv zeta in Hreg.
  destruct Hreg as (Hnone & -> & ->).
  unfold auth_login. cbn [users Login.email Login.password].
  rewrite (findOne_app_new _ _ _ Hnone) by (simpl; apply String.eqb_refl).
  cbn [User.passwordHash]. rewrite Hbcrypt. simpl.
  eexists. split; [reflexivity|]. split; reflexivity.
Qed.

Lemma register_then_login_witness :
  handle (H := Demo.runtime) Demo.cfg 0 empty_store
    (POST_auth_register
       {| Register.name := "Alice"; Register.email := "alice@nexora.dev";
          Register.password := "wonderland"; Register.position := None |})
  = (run (H := Demo.runtime) Demo.cfg empty_store (firstn 1 Demo.history),
     Resp 200 (JObj [ ("user", sanitizeUser (H := Demo.runtime) Demo.alice);
                      ("token", JStr "alice.jwt") ]))
  /\ bcrypt_compare (Runtime := Demo.runtime) "wonderland"
       (bcrypt_hash (Runtime := Demo.runtime) "wonderland") = true
  /\ exists token',
       handle (H := Demo.runtime) Demo.cfg 7000
         (run (H := Demo.runtime) Demo.cfg empty_store (firstn 1 Demo.history))
         (POST_auth_login {| Login.email := "alice@nexora.dev";
                             Login.password := "wonderland" |})
       = (run (H := Demo.runtime) Demo.cfg empty_store (firstn 1 Demo.history),
          Resp 200 (JObj [ ("user", sanitizeUser (H := Demo.runtime) Demo.alice);
                           ("token", JStr token') ])).
Proof.
  split; [reflexivity|]. split; [reflexivity|].
  destruct (register_then_login (H := Demo.runtime) Demo.cfg 0 7000 empty_store
              (run (H := Demo.runtime) Demo.cfg empty_store (firstn 1 Demo.history))
              {| Register.name := "Alice"; Register.email := "alice@nexora.dev";
                 Register.password := "wonderland"; Register.position := None |}
              (JObj [ ("user", sanitizeUser (H := Demo.runtime) Demo.alice);
                      ("token", JStr "alice.jwt") ])
              eq_refl eq_refl) as (token' & Hlogin & _).
  exists token'. exact Hlogin.
Defined.

Lemma auth_register_used_email `{Runtime} (cfg : env) (now : Z)
    (st : store) (body : Register.body) (u : User.t) :
  In u (users st) ->
  User.email u = Register.email body ->
  auth_register cfg now st body
  = (st, Resp 400 (error_body "Email already exists")).
Proof.
  intros Hin Hemail. unfold auth_register.
  destruct (findOne _ (users st)) as [existing|] eqn:E; [reflexivity|].
  exfalso. rewrite findOne_none_iff in E. specialize (E u Hin).
  cbv beta in E. rewrite Hemail, String.eqb_refl in E. discriminate.
Qed.

(** Registering an email that a stored user already has answers 400
    [{ error: "Email already exists" }] and leaves the store as it was,
    whatever the name and password. *)
Theorem register_rejects_used_email `{Runtime} (cfg : env) (now : Z)
    (st : store) (body : Register.body) (u : User.t) :
  In u (users st) ->
  User.email u = Register.email body ->
  handle cfg now st (POST_auth_register body)
  = (st, Resp 400 (JObj [("error", JStr "Email already exists")])).
Proof. intros Hin Hemail. exact (auth_register_used_email cfg now st body u Hin Hemail). Qed.

Lemma register_rejects_used_email_witness :
  In Demo.bob (users Demo.st)
  /\ handle (H := Demo.runtime) Demo.cfg 9000 Demo.st
       (POST_auth_register
          {| Register.name := "Robert"; Register.email := "bob@nexora.dev";
             Register.password := "another"; Register.position := None |})
     = (Demo.st, Resp 400 (JObj [("error", JStr "Email already exists")])).
Proof.
  assert (Hin : In Demo.bob (users Demo.st)) by (simpl; auto).
  split; [exact Hin|].
  apply (register_rejects_used_email (H := Demo.runtime) Demo.cfg 9000 Demo.st
           {| Register.name := "Robert"; Register.email := "bob@nexora.dev";
              Register.password := "another"; Register.position := None |}
           Demo.bob Hin).
  reflexivity.
Defined.

Lemma handle_users `{Runtime} (cfg : env) (now : Z) (st : store)
    (r : request) :
  users (fst (handle cfg now st r)) = users st
  \/ exists user body,
       r = POST_auth_register body
       /\ users (fst (handle cfg now st r)) = (users st ++ [user])%list
       /\ User.email user = Register.email body
       /\ User._id user = ObjectId (next_id st).
Proof.
  destruct r; simpl;
    try (unfold protected; destruct (auth cfg now authorization); simpl);
    try (left; reflexivity).
  - destruct (auth_register cfg now st body) as [st' [status r|]] eqn:E.
    + unfold auth_register in E.
      destruct (findOne _ (users st)); [injection E as <- _ _; auto|].
      destruct (User_create _ _ _ _ _ _) as [[st'' user]|] eqn:Ecreate.
      * injection E as <- _ _. right. exists user, body.
        unfold User_create in Ecreate.
        destruct (validated _ _ _) as [created|] eqn:V; [|discriminate].
        destruct (existsb _ _); [discriminate|].
        apply validated_Ok in V. destruct V as [_ ->].
        injection Ecreate as <- <-. auto.
      * injection E as <- _ _. auto.
    + unfold auth_register in E.
      destruct (findOne _ (users st)); [discriminate|].
      destruct (User_create _ _ _ _ _ _) as [[st'' user]|]; discriminate.
  - unfold auth_login. destruct (findOne _ _); [|auto].
    destruct (negb _); auto.
  - unfold post_transactions.
    destruct (Transaction_create _ _ _) as [[st' tx]|] eqn:E; simpl; auto.
    apply Transaction_create_Ok in E. destruct E as [-> _]. auto.
  - unfold post_banks.
    destruct (Bank_create _ _) as [[st' bank]|] eqn:E; simpl; auto.
    apply Bank_create_Ok in E. destruct E as [-> _]. auto.
Qed.

Lemma handle_emails_unique `{Runtime} (cfg : env) (now : Z) (st : store)
    (r : request) :
  NoDup (map User.email (users st)) ->
  NoDup (map User.email (users (fst (handle cfg now st r)))).
Proof.
  intros Hnd.
  destruct (handle_users cfg now st r)
    as [E|(user & body & Hr & E & Hemail & _)]; rewrite E; [exact Hnd|].
  rewrite map_app. simpl.
  apply NoDup_app; [exact Hnd|repeat constructor; simpl; tauto|].
  intros e Hin [<-|[]].
  apply in_map_iff in Hin. destruct Hin as (u & Hu & Hin).
  subst r. simpl in E.
  rewrite (auth_register_used_email cfg now st body u Hin) in E
    by congruence.
  simpl in E. apply (f_equal (@List.length _)) in E.
  rewrite length_app in E. simpl in E. lia.
Qed.

(** In every store the server can reach from the empty one, no two users
    share an email: the check in the registration handler is enough when
    requests are served one after the other. *)
Theorem reachable_emails_unique `{Runtime} (cfg : env)
    (rs : list (Z * request)) :
  NoDup (map User.email (users (run cfg empty_store rs))).
Proof.
  assert (Hrun : forall st, NoDup (map User.email (users st)) ->
                            NoDup (map User.email (users (run cfg st rs)))).
  { induction rs as [|[now r] rs IH]; simpl; intros st Hnd; [exact Hnd|].
    apply IH. apply handle_emails_unique. exact Hnd. }
  apply Hrun. constructor.
Qed.

(** No request removes or rewrites a user: over any run, the user collection
    only gets longer at its end. *)
Theorem users_only_grow `{Runtime} (cfg : env) (rs : list (Z * request)) :
  forall st, exists registered,
    users (run cfg st rs) = (users st ++ registered)%list.
Proof.
  induction rs as [|[now r] rs IH]; simpl; intros st.
  - exists []. rewrite app_nil_r. reflexivity.
  - destruct (IH (fst (handle cfg now st r))) as [l ->].
    destruct (handle_users cfg now st r) as [->|(user & body & _ & -> & _)].
    + exists l. reflexivity.
    + exists (user :: l). rewrite <- app_assoc. reflexivity.
Qed.

(** ** Status codes *)

(** A response has status 200, 400 or 401.  400 comes only from the two
    unauthenticated routes and 401 only from [auth] on a protected route; in
    both cases the store is left as it was. *)
Theorem error_statuses `{Runtime} (cfg : env) (now : Z) (st : store)
    (r : request) (status : Z) (body : value) :
  snd (handle cfg now st r) = Resp status body ->
  status = 200%Z
  \/ (status = 400%Z /\ authorization_of r = None
      /\ fst (handle cfg now st r) = st)
  \/ (status = 401%Z
      /\ (exists a, authorization_of r = Some a
                    /\ auth cfg now a = inl (Resp 401 body))
      /\ fst (handle cfg now st r) = st).
Proof.
  assert (Hauth : forall a response,
            auth cfg now a = inl response ->
            exists body', response = Resp 401 body').
  { intros a response. unfold auth.
    destruct (prefix _ _); [|intros [= <-]; eauto].
    destruct (slice7 _); [intros [= <-]; eauto|].
    destruct (jwt_verify _ _ _); [intros [= <-]; eauto|discriminate]. }
  destruct r; simpl;
    try (unfold protected;
         destruct (auth cfg now authorization) as [response|user] eqn:Ea;
         [destruct (Hauth _ _ Ea) as [body' ->]; simpl; intros [= <- <-];
          right; right; split; [reflexivity|]; split; [eauto|reflexivity]|]);
    simpl; try (intros [= <- _]; left; reflexivity).
  - unfold auth_register. destruct (findOne _ _).
    + intros [= <- _]. right. left. auto.
    + destruct (User_create _ _ _ _ _ _) as [[st' user]|]; simpl.
      * intros [= <- _]. left. reflexivity.
      * intros [= <- _]. right. left. auto.
  - unfold auth_login. destruct (findOne _ _).
    + destruct (negb _); simpl; intros [= <- _]; [right; left|left]; auto.
    + intros [= <- _]. right. left. auto.
  - unfold post_transactions.
    destruct (Transaction_create _ _ _) as [[st' tx]|]; simpl;
      [intros [= <- _]; left; reflexivity|discriminate].
  - unfold post_banks.
    destruct (Bank_create _ _) as [[st' bank]|]; simpl;
      [intros [= <- _]; left; reflexivity|discriminate].
Qed.

Lemma error_statuses_witness :
  snd (handle (H := Demo.runtime) Demo.cfg 5000 Demo.st
         (POST_transactions (Some "Bearer forged.jwt") Demo.rent))
  = Resp 401 (error_body "Invalid token")
  /\ (401%Z = 200%Z
      \/ (401%Z = 400%Z
          /\ authorization_of
               (POST_transactions (Some "Bearer forged.jwt") Demo.rent) = None
          /\ fst (handle (H := Demo.runtime) Demo.cfg 5000 Demo.st
                    (POST_transactions (Some "Bearer forged.jwt") Demo.rent))
             = Demo.st)
      \/ (401%Z = 401%Z
          /\ (exists a,
                authorization_of
                  (POST_transactions (Some "Bearer forged.jwt") Demo.rent)
                = Some a
                /\ auth (H := Demo.runtime) Demo.cfg 5000 a
                   = inl (Resp 401 (error_body "Invalid token")))
          /\ fst (handle (H := Demo.runtime) Demo.cfg 5000 Demo.st
                    (POST_transactions (Some "Bearer forged.jwt") Demo.rent))
             = Demo.st)).
Proof.
  split; [reflexivity|].
  apply (error_statuses (H := Demo.runtime) Demo.cfg 5000 Demo.st
           (POST_transactions (Some "Bearer forged.jwt") Demo.rent)).
  reflexivity.
Defined.

(** ** What [auth] lets through *)



(** ** The other listings *)

Lemma Z_leb_total (x y : Z) : (x <=? y)%Z = true \/ (y <=? x)%Z = true.
Proof. rewrite !Z.leb_le. lia. Qed.

Lemma Z_leb_trans (x y z : Z) :
  (x <=? y)%Z = true -> (y <=? z)%Z = true -> (x <=? z)%Z = true.
Proof. rewrite !Z.leb_le. lia. Qed.

(** [GET /api/users] shows every authenticated caller the public shape of
    every stored user, each once, most recently created first. *)
Theorem get_users_lists_everyone `{Runtime} (cfg : env) (now : Z) (st : store)
    (a : option string) (caller : Jwt.payload) :
  auth cfg now a = inr caller ->
  exists listed,
    handle cfg now st (GET_users a)
    = (st, Resp 200 (JArr (map sanitizeUser listed)))
    /\ Permutation listed (users st)
    /\ StronglySorted
         (fun u1 u2 => (User.createdAt u2 <= User.createdAt u1)%Z) listed.
Proof.
  intros Hauth. cbn [handle]. unfold protected. rewrite Hauth.
  unfold get_users. rewrite find_all.
  eexists. split; [reflexivity|]. split.
  - apply sort_desc_perm.
  - pose proof (sort_desc_sorted Z.leb User.createdAt Z_leb_total Z_leb_trans
                  (users st)) as Hs.
    induction Hs as [|u l Hs IH Hall]; constructor; [exact IH|].
    rewrite Forall_forall in Hall |- *. intros v Hv.
    apply Z.leb_le. exact (Hall v Hv).
Qed.

Lemma get_users_lists_everyone_witness :
  auth (H := Demo.runtime) Demo.cfg 5000 Demo.as_bob = inr Demo.bob_claims
  /\ exists listed,
       handle (H := Demo.runtime) Demo.cfg 5000 Demo.st (GET_users Demo.as_bob)
       = (Demo.st, Resp 200 (JArr (map (sanitizeUser (H := Demo.runtime)) listed)))
       /\ Permutation listed (users Demo.st)
       /\ StronglySorted
            (fun u1 u2 => (User.createdAt u2 <= User.createdAt u1)%Z) listed.
Proof.
  split; [reflexivity|].
  apply (get_users_lists_everyone (H := Demo.runtime) Demo.cfg 5000 Demo.st
           Demo.as_bob Demo.bob_claims).
  reflexivity.
Defined.

(** ** Collections whose documents have distinct ids *)

Section UniqueIds.
Context {A : Type} (idf : A -> string).
Implicit Types (q : A -> bool) (set : A -> A) (c : list A).

Lemma same_id_same_document c d e :
  NoDup (map idf c) -> In d c -> In e c -> idf d = idf e -> d = e.
Proof.
  induction c as [|x c IH]; simpl; [tauto|].
  intros Hnd. inversion Hnd as [|? ? Hnotin Hrest]; subst.
  intros [->|Hd] [->|He] E; auto.
  - exfalso. apply Hnotin. rewrite E. apply in_map. exact He.
  - exfalso. apply Hnotin. rewrite <- E. apply in_map. exact Hd.
Qed.

Lemma updateOne_unique q set c :
  NoDup (map idf c) ->
  (forall d e, q d = true -> q e = true -> idf d = idf e) ->
  updateOne q set c = updateMany q set c.
Proof.
  intros Hnd Hq. induction c as [|d c IH]; simpl; [reflexivity|].
  inversion Hnd as [|? ? Hnotin Hrest]; subst.
  destruct (q d) eqn:Ed.
  - f_equal. unfold updateMany. symmetry.
    rewrite <- (map_id c) at 2. apply map_ext_in. intros e He.
    destruct (q e) eqn:Ee; [|reflexivity].
    exfalso. apply Hnotin. rewrite (Hq d e Ed Ee). apply in_map. exact He.
  - f_equal. apply IH. exact Hrest.
Qed.

Lemma deleteOne_unique q c :
  NoDup (map idf c) ->
  (forall d e, q d = true -> q e = true -> idf d = idf e) ->
  deleteOne q c = deleteMany q c.
Proof.
  intros Hnd Hq. induction c as [|d c IH]; simpl; [reflexivity|].
  inversion Hnd as [|? ? Hnotin Hrest]; subst.
  unfold deleteMany in *. simpl.
  destruct (q d) eqn:Ed; simpl.
  - symmetry. apply forallb_filter_id. apply forallb_forall. intros e He.
    destruct (q e) eqn:Ee; [|reflexivity].
    exfalso. apply Hnotin. rewrite (Hq d e Ed Ee). apply in_map. exact He.
  - f_equal. apply IH. exact Hrest.
Qed.
End UniqueIds.

Lemma updateMany_idempotent {A : Type} (q : A -> bool) (set : A -> A)
    (c : list A) :
  (forall d, set (set d) = set d) ->
  updateMany q set (updateMany q set c) = updateMany q set c.
Proof.
  intros Hset. unfold updateMany. rewrite map_map. apply map_ext.
  intros d. destruct (q d) eqn:Ed; [|rewrite Ed; reflexivity].
  destruct (q (set d)); auto.
Qed.

Lemma deleteOne_app_last {A : Type} (q : A -> bool) (c : list A) (d : A) :
  (forall e, In e c -> q e = false) -> q d = true ->
  deleteOne q (c ++ [d]) = c.
Proof.
  intros Hc Hd. induction c as [|e c IH]; simpl.
  - rewrite Hd. reflexivity.
  - rewrite (Hc e) by (left; reflexivity). f_equal. apply IH.
    intros x Hx. apply Hc. right. exact Hx.
Qed.

Lemma Transaction_set_idempotent (b : Transaction.body) (t : Transaction.t) :
  Transaction_set b (Transaction_set b t) = Transaction_set b t.
Proof.
  unfold Transaction_set. simpl.
  destruct b as [uid un d ty c am pm ba bn de at_ it inv cr]; simpl.
  destruct uid, un, d, ty, c, am, pm, ba, bn, de, at_, it, inv, cr; reflexivity.
Qed.

Lemma same_id_filter (id u : string) (d e : Transaction.t) :
  matches_tx {| on_id := IdIs id; on_userId := Some u |} d = true ->
  matches_tx {| on_id := IdIs id; on_userId := Some u |} e = true ->
  Transaction._id d = Transaction._id e.
Proof.
  intros Hd He. apply matches_id in Hd, He.
  destruct Hd as [-> _], He as [-> _]. reflexivity.
Qed.

(** ** Updating and deleting one's own transaction *)

(** In a well-formed store, repeating a [PUT /api/transactions/:id] changes
    nothing further: the store after the second request is the store after
    the first. *)
Theorem put_transactions_twice `{Runtime} (cfg : env) (now now' : Z)
    (st : store) (a : option string) (caller : Jwt.payload) (id : string)
    (body : Transaction.body) :
  store_ok st ->
  auth cfg now a = inr caller ->
  auth cfg now' a = inr caller ->
  handle cfg now' (fst (handle cfg now st (PUT_transactions a id body)))
    (PUT_transactions a id body)
  = handle cfg now st (PUT_transactions a id body).
Proof.
  intros Hok Hauth Hauth'. simpl. unfold protected. rewrite Hauth, Hauth'.
  unfold put_transactions. cbn [fst transactions with_transactions].
  set (q := matches_tx _). set (c := transactions st).
  assert (Hnd : NoDup (map Transaction._id c))
    by (apply (transactions_unique _ Hok)).
  assert (Hq : forall d e, q d = true -> q e = true ->
                           Transaction._id d = Transaction._id e)
    by (intros d e; apply same_id_filter).
  rewrite (updateOne_unique Transaction._id q _ c Hnd Hq).
  rewrite (updateOne_unique Transaction._id q _ (updateMany q _ c)).
  - rewrite updateMany_idempotent by (apply Transaction_set_idempotent).
    reflexivity.
  - rewrite ids_updateMany by reflexivity. exact Hnd.
  - exact Hq.
Qed.

Lemma put_transactions_twice_witness :
  store_ok Demo.st
  /\ auth (H := Demo.runtime) Demo.cfg 5000 Demo.as_alice = inr Demo.alice_claims
  /\ auth (H := Demo.runtime) Demo.cfg 6000 Demo.as_alice = inr Demo.alice_claims
  /\ handle (H := Demo.runtime) Demo.cfg 6000
       (fst (handle (H := Demo.runtime) Demo.cfg 5000 Demo.st
               (PUT_transactions Demo.as_alice "2"
                  (Transaction.only_category (Some "Housing")))))
       (PUT_transactions Demo.as_alice "2"
          (Transaction.only_category (Some "Housing")))
     = handle (H := Demo.runtime) Demo.cfg 5000 Demo.st
         (PUT_transactions Demo.as_alice "2"
            (Transaction.only_category (Some "Housing"))).
Proof.
  split; [exact demo_store_ok|]. split; [reflexivity|]. split; [reflexivity|].
  apply (put_transactions_twice (H := Demo.runtime) Demo.cfg 5000 6000 Demo.st
           Demo.as_alice Demo.alice_claims "2"
           (Transaction.only_category (Some "Housing")) demo_store_ok);
    reflexivity.
Defined.

(** In a well-formed store, [DELETE /api/transactions/:id] on a transaction
    of the caller removes that transaction and nothing else: the collection
    shrinks by one, and what remains are the old documents with another
    [_id]. *)
Theorem delete_transactions_removes_exactly_one `{Runtime} (cfg : env)
    (now : Z) (st : store) (a : option string) (caller : Jwt.payload)
    (t : Transaction.t) :
  store_ok st ->
  auth cfg now a = inr caller ->
  In t (transactions st) ->
  Transaction.userId t = Jwt.id caller ->
  let st' := fst (handle cfg now st (DELETE_transactions a (Transaction._id t))) in
  (forall t', In t' (transactions st') <->
              In t' (transactions st) /\ Transaction._id t' <> Transaction._id t)
  /\ S (List.length (transactions st')) = List.length (transactions st)
  /\ users st' = users st /\ banks st' = banks st.
Proof.
  intros Hok Hauth Hin Hown. cbv zeta. simpl. unfold protected.
  rewrite Hauth. simpl.
  set (q := matches_tx _).
  assert (Hnd : NoDup (map Transaction._id (transactions st)))
    by (apply (transactions_unique _ Hok)).
  assert (Hq : forall d e, q d = true -> q e = true ->
                           Transaction._id d = Transaction._id e)
    by (intros d e; apply same_id_filter).
  assert (Hqt : q t = true).
  { apply matches_id. split; [reflexivity|exact Hown]. }
  split; [|split; [|split; reflexivity]].
  - intros t'.
    rewrite (deleteOne_unique Transaction._id q _ Hnd Hq).
    unfold deleteMany. rewrite filter_In. split.
    + intros [Hin' Hq']. split; [exact Hin'|]. intros E.
      assert (t' = t)
        by (apply (same_id_same_document Transaction._id (transactions st));
            assumption).
      subst t'. rewrite Hqt in Hq'. discriminate.
    + intros [Hin' Hne]. split; [exact Hin'|].
      destruct (q t') eqn:Eq'; [|reflexivity].
      exfalso. apply Hne. apply Hq; assumption.
  - clear Hnd Hq. revert Hin.
    induction (transactions st) as [|d c IH]; simpl; [tauto|].
    intros [->|Hin].
    + rewrite Hqt. reflexivity.
    + destruct (q d); [reflexivity|]. simpl. f_equal. apply IH. exact Hin.
Qed.

Lemma delete_transactions_removes_exactly_one_witness :
  store_ok Demo.st
  /\ auth (H := Demo.runtime) Demo.cfg 5000 Demo.as_bob = inr Demo.bob_claims
  /\ In Demo.bob_rent (transactions Demo.st)
  /\ Transaction.userId Demo.bob_rent = Jwt.id Demo.bob_claims
  /\ S (List.length
          (transactions
             (fst (handle (H := Demo.runtime) Demo.cfg 5000 Demo.st
                     (DELETE_transactions Demo.as_bob "3")))))
     = List.length (transactions Demo.st).
Proof.
  assert (Hin : In Demo.bob_rent (transactions Demo.st))
    by (right; left; reflexivity).
  split; [exact demo_store_ok|]. split; [reflexivity|].
  split; [exact Hin|]. split; [reflexivity|].
  destruct (delete_transactions_removes_exactly_one (H := Demo.runtime)
              Demo.cfg 5000 Demo.st Demo.as_bob Demo.bob_claims Demo.bob_rent
              demo_store_ok eq_refl Hin eq_refl) as (_ & Hlen & _).
  exact Hlen.
Defined.

(** ** Bulk operations *)







(** In a well-formed store a bulk delete of a single id does what
    [DELETE /api/transactions/:id] does. *)
Theorem bulk_delete_of_one_is_delete `{Runtime} (cfg : env) (now : Z)
    (st : store) (a : option string) (id : string) :
  store_ok st ->
  handle cfg now st (POST_transactions_bulk_delete a [id])
  = handle cfg now st (DELETE_transactions a id).
Proof.
  intros Hok. simpl. unfold protected.
  destruct (auth cfg now a) as [|caller]; [reflexivity|].
  unfold bulk_delete, delete_transactions. do 2 f_equal.
  rewrite (deleteOne_unique Transaction._id).
  - unfold deleteMany. apply filter_ext. intros t.
    unfold matches_tx, matches. simpl. rewrite orb_false_r. reflexivity.
  - apply (transactions_unique _ Hok).
  - intros d e. apply same_id_filter.
Qed.

Lemma bulk_delete_of_one_is_delete_witness :
  store_ok Demo.st
  /\ handle (H := Demo.runtime) Demo.cfg 5000 Demo.st
       (POST_transactions_bulk_delete Demo.as_bob ["3"])
     = handle (H := Demo.runtime) Demo.cfg 5000 Demo.st
         (DELETE_transactions Demo.as_bob "3").
Proof.
  split; [exact demo_store_ok|].
  apply (bulk_delete_of_one_is_delete (H := Demo.runtime) Demo.cfg 5000 Demo.st
           Demo.as_bob "3" demo_store_ok).
Defined.

(** ** Create, then delete *)

(** In a well-formed store, deleting the transaction that a
    [POST /api/transactions] has just returned, by the [id] in its response,
    brings the transaction collection back to what it was before the
    [POST]. *)
Theorem post_then_delete_restores `{Runtime} (cfg : env) (now now' : Z)
    (st st1 : store) (a : option string) (caller : Jwt.payload)
    (F : Transaction.body) (r : value) :
  store_ok st ->
  auth cfg now a = inr caller ->
  auth cfg now' a = inr caller ->
  handle cfg now st (POST_transactions a F) = (st1, Resp 200 r) ->
  exists id,
    prop "id" r = JStr id
    /\ snd (handle cfg now' st1 (DELETE_transactions a id))
       = Resp 200 success_body
    /\ transactions (fst (handle cfg now' st1 (DELETE_transactions a id)))
       = transactions st.
Proof.
  intros Hok Hauth Hauth' Hpost. simpl in Hpost. unfold protected in Hpost.
  rewrite Hauth in Hpost. apply post_transactions_created in Hpost.
  destruct Hpost as (tx & Hcreate & _ & ->).
  apply Transaction_create_Ok in Hcreate. simpl in Hcreate.
  destruct Hcreate as (-> & Hid & Huid & _). injection Huid as Huid.
  exists (Transaction._id tx). split; [reflexivity|].
  simpl. unfold protected. rewrite Hauth'. simpl.
  split; [reflexivity|].
  apply deleteOne_app_last.
  - intros e He.
    destruct (matches_tx _ e) eqn:Eq; [|reflexivity].
    apply matches_id in Eq. destruct Eq as [Eid _]. exfalso.
    apply (fresh_ObjectId (next_id st) (map Transaction._id (transactions st))).
    + apply (transactions_drawn _ Hok).
    + rewrite <- Hid, <- Eid. apply in_map. exact He.
  - apply matches_id. split; [reflexivity|congruence].
Qed.

Lemma post_then_delete_restores_witness :
  store_ok Demo.st
  /\ auth (H := Demo.runtime) Demo.cfg 5000 Demo.as_alice = inr Demo.alice_claims
  /\ auth (H := Demo.runtime) Demo.cfg 9000 Demo.as_alice = inr Demo.alice_claims
  /\ handle (H := Demo.runtime) Demo.cfg 5000 Demo.st
       (POST_transactions Demo.as_alice Demo.rent)
     = (fst Demo.posted, Resp 200 Demo.posted_record)
  /\ exists id,
       prop "id" Demo.posted_record = JStr id
       /\ snd (handle (H := Demo.runtime) Demo.cfg 9000 (fst Demo.posted)
                 (DELETE_transactions Demo.as_alice id))
          = Resp 200 success_body
       /\ transactions
            (fst (handle (H := Demo.runtime) Demo.cfg 9000 (fst Demo.posted)
                    (DELETE_transactions Demo.as_alice id)))
          = transactions Demo.st.
Proof.
  split; [exact demo_store_ok|]. split; [reflexivity|]. split; [reflexivity|].
  split; [reflexivity|].
  apply (post_then_delete_restores (H := Demo.runtime) Demo.cfg 5000 9000
           Demo.st (fst Demo.posted) Demo.as_alice Demo.alice_claims Demo.rent
           Demo.posted_record demo_store_ok eq_refl eq_refl eq_refl).
Defined.

(** ** Another user's listing *)

Section FilterFacts.
Context {A : Type}.
Implicit Types (p q : A -> bool) (set : A -> A) (c : list A).

Lemma filter_updateMany p q set c :
  (forall d, q d = true -> p d = false /\ p (set d) = false) ->
  filter p (updateMany q set c) = filter p c.
Proof.
  intros Hq. unfold updateMany.
  induction c as [|d c IH]; simpl; [reflexivity|].
  destruct (q d) eqn:Ed; [|rewrite IH; reflexivity].
  destruct (Hq d Ed) as [-> ->]. exact IH.
Qed.

Lemma filter_updateOne p q set c :
  (forall d, q d = true -> p d = false /\ p (set d) = false) ->
  filter p (updateOne q set c) = filter p c.
Proof.
  intros Hq. induction c as [|d c IH]; simpl; [reflexivity|].
  destruct (q d) eqn:Ed; simpl; [|rewrite IH; reflexivity].
  destruct (Hq d Ed) as [-> ->]. reflexivity.
Qed.

Lemma filter_deleteOne p q c :
  (forall d, q d = true -> p d = false) ->
  filter p (deleteOne q c) = filter p c.
Proof.
  intros Hq. induction c as [|d c IH]; simpl; [reflexivity|].
  destruct (q d) eqn:Ed; simpl; [|rewrite IH; reflexivity].
  rewrite (Hq d Ed). reflexivity.
Qed.

Lemma filter_deleteMany p q c :
  (forall d, q d = true -> p d = false) ->
  filter p (deleteMany q c) = filter p c.
Proof.
  intros Hq. unfold deleteMany.
  induction c as [|d c IH]; simpl; [reflexivity|].
  destruct (q d) eqn:Ed; simpl; [|rewrite IH; reflexivity].
  rewrite (Hq d Ed). exact IH.
Qed.

Lemma filter_app_last p c d : p d = false -> filter p (c ++ [d]) = filter p c.
Proof. intros Hd. rewrite filter_app. simpl. rewrite Hd. apply app_nil_r. Qed.
End FilterFacts.

Lemma owned_not_other (caller : Jwt.payload) (other : string) (c : id_filter)
    (t : Transaction.t) :
  other <> Jwt.id caller ->
  matches_tx {| on_id := c; on_userId := Some (Jwt.id caller) |} t = true ->
  (Transaction.userId t =? other)%string = false.
Proof.
  intros Hne Hm. apply String.eqb_neq. intros E. apply Hne.
  rewrite <- E. eapply matches_owner; [|exact Hm]. reflexivity.
Qed.

(** A request served under one identity does not change what another user's
    [GET /api/transactions] returns, unless it is a
    [PUT /api/transactions/:id] whose body carries a [userId]. *)
Theorem foreign_listing_unchanged `{Runtime} (cfg : env) (now : Z)
    (st : store) (r : request) (caller : Jwt.payload) (other : string) :
  caller_of cfg now r = Some caller ->
  other <> Jwt.id caller ->
  (forall a id body, r = PUT_transactions a id body ->
                     Transaction.b_userId body = None) ->
  filter (fun t => (Transaction.userId t =? other)%string)
    (transactions (fst (handle cfg now st r)))
  = filter (fun t => (Transaction.userId t =? other)%string) (transactions st)
  /\ forall now' a' reader,
       auth cfg now' a' = inr reader ->
       Jwt.id reader = other ->
       snd (handle cfg now' (fst (handle cfg now st r)) (GET_transactions a'))
       = snd (handle cfg now' st (GET_transactions a')).
Proof.
  intros Hc Hne Hput.
  assert (Hfilter :
    filter (fun t => (Transaction.userId t =? other)%string)
      (transactions (fst (handle cfg now st r)))
    = filter (fun t => (Transaction.userId t =? other)%string)
        (transactions st)).
  { apply caller_of_auth in Hc. destruct Hc as (a & Ha & Hauth).
    destruct r; simpl in Ha; try discriminate; injection Ha as ->;
      simpl; unfold protected; rewrite Hauth; simpl; try reflexivity.
    - unfold post_transactions.
      destruct (Transaction_create _ _ _) as [[st' tx]|] eqn:E; simpl;
        [|reflexivity].
      apply Transaction_create_Ok in E. simpl in E.
      destruct E as (-> & _ & Huid & _). injection Huid as Huid. simpl.
      apply filter_app_last. rewrite <- Huid. apply String.eqb_neq. congruence.
    - apply filter_updateOne. intros d Hd. simpl.
      rewrite (Hput _ _ _ eq_refl). simpl.
      split; exact (owned_not_other caller other _ d Hne Hd).
    - apply filter_deleteOne. intros d Hd.
      exact (owned_not_other caller other _ d Hne Hd).
    - apply filter_deleteMany. intros d Hd.
      exact (owned_not_other caller other _ d Hne Hd).
    - apply filter_updateMany. intros d Hd. simpl.
      split; exact (owned_not_other caller other _ d Hne Hd).
    - unfold post_banks.
      destruct (Bank_create _ _) as [[st' bank]|] eqn:E; simpl; [|reflexivity].
      apply Bank_create_Ok in E. destruct E as (-> & _). reflexivity. }
  split; [exact Hfilter|].
  intros now' a' reader Hreader Hid. simpl. unfold protected.
  rewrite Hreader. simpl. unfold find.
  assert (Hext : forall l,
    filter (matches_tx {| on_id := AnyId; on_userId := Some (Jwt.id reader) |}) l
    = filter (fun t => (Transaction.userId t =? other)%string) l).
  { intros l. apply filter_ext. intros t. rewrite Hid. reflexivity. }
  rewrite !Hext, Hfilter. reflexivity.
Qed.

Lemma foreign_listing_unchanged_witness :
  caller_of (H := Demo.runtime) Demo.cfg 5000
    (POST_transactions_bulk_category Demo.as_alice ["2"; "3"] (Some "Housing"))
  = Some Demo.alice_claims
  /\ "1" <> Jwt.id Demo.alice_claims
  /\ snd (handle (H := Demo.runtime) Demo.cfg 6000
            (fst (handle (H := Demo.runtime) Demo.cfg 5000 Demo.st
                    (POST_transactions_bulk_category Demo.as_alice ["2"; "3"]
                       (Some "Housing"))))
            (GET_transactions Demo.as_bob))
     = snd (handle (H := Demo.runtime) Demo.cfg 6000 Demo.st
              (GET_transactions Demo.as_bob)).
Proof.
  assert (Hne : "1" <> Jwt.id Demo.alice_claims) by discriminate.
  split; [reflexivity|]. split; [exact Hne|].
  destruct (foreign_listing_unchanged (H := Demo.runtime) Demo.cfg 5000 Demo.st
              (POST_transactions_bulk_category Demo.as_alice ["2"; "3"]
                 (Some "Housing"))
              Demo.alice_claims "1" eq_refl Hne) as (_ & Hget).
  - intros; discriminate.
  - apply (Hget 6000%Z Demo.as_bob Demo.bob_claims); reflexivity.
Defined.

(** ** The public shapes *)




(** ** Bodies the schema refuses *)

Lemma Transaction_create_type `{Runtime} (st st' : store) (now : Z)
    (b : Transaction.body) (tx : Transaction.t) :
  Transaction_create st now b = Ok (st', tx) ->
  Transaction.type tx = "INCOME" \/ Transaction.type tx = "EXPENSE".
Proof.
  intros E. pose proof (Transaction_create_Ok st st' now b tx E) as Hok.
  destruct Hok as (_ & _ & _ & _ & _ & Hty & _).
  unfold Transaction_create in E. apply validated_Ok in E.
  destruct E as [Herr _].
  repeat (apply app_eq_nil in Herr; destruct Herr as [?Hreq Herr]).
  rewrite Hty in Hreq3. unfold enum in Hreq3. simpl in Hreq3.
  destruct (String.eqb_spec (Transaction.type tx) "INCOME"); [auto|].
  destruct (String.eqb_spec (Transaction.type tx) "EXPENSE"); [auto|].
  discriminate.
Qed.

(** [POST /api/transactions] with a body that lacks [date], [type],
    [category], [amount] or [paymentMethod], or whose [type] is neither
    ["INCOME"] nor ["EXPENSE"], stores nothing, and the handler sends no
    response of its own: [Transaction.create] throws and nothing catches
    it. *)
Theorem post_transactions_refuses_invalid `{Runtime} (cfg : env) (now : Z)
    (st : store) (a : option string) (caller : Jwt.payload)
    (body : Transaction.body) :
  auth cfg now a = inr caller ->
  Transaction.b_date body = None
  \/ Transaction.b_type body = None
  \/ Transaction.b_category body = None
  \/ Transaction.b_amount body = None
  \/ Transaction.b_paymentMethod body = None
  \/ (exists ty, Transaction.b_type body = Some ty
                 /\ ty <> "INCOME" /\ ty <> "EXPENSE") ->
  handle cfg now st (POST_transactions a body) = (st, Unhandled).
Proof.
  intros Hauth Hbad. simpl. unfold protected. rewrite Hauth.
  unfold post_transactions.
  destruct (Transaction_create _ _ _) as [[st' tx]|] eqn:E; [|reflexivity].
  exfalso.
  pose proof (Transaction_create_type _ _ _ _ _ E) as Hty.
  apply Transaction_create_Ok in E. simpl in E.
  destruct E as (_ & _ & _ & _ & Hd & Ht & Hc & Ha & Hp & _).
  destruct Hbad as [B|[B|[B|[B|[B|(ty & B & Hi & He)]]]]]; try congruence.
  rewrite B in Ht. injection Ht as ->. tauto.
Qed.

Lemma post_transactions_refuses_invalid_witness :
  auth (H := Demo.runtime) Demo.cfg 5000 Demo.as_alice = inr Demo.alice_claims
  /\ Transaction.b_date Demo.hand_over_to_bob = None
  /\ handle (H := Demo.runtime) Demo.cfg 5000 Demo.st
       (POST_transactions Demo.as_alice Demo.hand_over_to_bob)
     = (Demo.st, Unhandled).
Proof.
  split; [reflexivity|]. split; [reflexivity|].
  apply (post_transactions_refuses_invalid (H := Demo.runtime) Demo.cfg 5000
           Demo.st Demo.as_alice Demo.alice_claims Demo.hand_over_to_bob
           eq_refl).
  left. reflexivity.
Defined.

(** ** Bank records *)




(** ** From registration to an authenticated request *)



(** ** Login *)

(** A login is answered with 200 only if some stored user has the email of
    the request and [bcrypt.compare] accepts the password of the request
    against that user's stored hash; the response then carries that user's
    public shape and a token made for that user, and the store is as it
    was. *)
Theorem login_succeeds_only_with_accepted_password `{Runtime} (cfg : env)
    (now : Z) (st st' : store) (body : Login.body) (r : value) :
  handle cfg now st (POST_auth_login body) = (st', Resp 200 r) ->
  st' = st
  /\ exists user,
       In user (users st)
       /\ User.email user = Login.email body
       /\ bcrypt_compare (Login.password body) (User.passwordHash user) = true
       /\ r = JObj [ ("user", sanitizeUser user);
                     ("token", JStr (createToken cfg now user)) ].
Proof.
  simpl. unfold auth_login.
  destruct (findOne _ (users st)) as [user|] eqn:E; [|discriminate].
  destruct (bcrypt_compare _ _) eqn:C; simpl; [|discriminate].
  intros [= <- <-]. split; [reflexivity|].
  apply find_some in E. destruct E as [Hin Hemail].
  apply String.eqb_eq in Hemail.
  exists user. auto.
Qed.

Lemma login_succeeds_only_with_accepted_password_witness :
  handle (H := Demo.runtime) Demo.cfg 0 Demo.st
    (POST_auth_login {| Login.email := "bob@nexora.dev";
                        Login.password := "builder" |})
  = (Demo.st,
     Resp 200 (JObj [ ("user", sanitizeUser (H := Demo.runtime) Demo.bob);
                      ("token", JStr "bob.jwt") ]))
  /\ exists user,
       In user (users Demo.st)
       /\ User.email user = "bob@nexora.dev"
       /\ bcrypt_compare (Runtime := Demo.runtime) "builder"
            (User.passwordHash user) = true.
Proof.
  split; [reflexivity|].
  destruct (login_succeeds_only_with_accepted_password (H := Demo.runtime)
              Demo.cfg 0 Demo.st Demo.st
              {| Login.email := "bob@nexora.dev"; Login.password := "builder" |}
              _ eq_refl) as (_ & user & Hin & Hemail & Hok & _).
  exists user. auto.
Defined.
